(** * The bspline command-line harness (Tests/C++/bspline.cpp)

    A shallow embedding of the harness that drives the BSpline library:
    option parsing ([parseCommandLine]), the reading and subsampling of
    the data ([main]) and the tabulation of the fitted curve
    ([DumpSpline]), together with the version header
    (BSpline/BSplineVersion.h).

    Machine model (LP64): [int] and [unsigned int] are 32 bits wide,
    [size_t] is 64 bits wide, [datum] is an IEEE-754 binary64 [double].
    Unsigned arithmetic wraps modulo the width, and [int] arithmetic is
    taken two's-complement, as the hardware computes it. *)

From Stdlib Require Import ZArith List String Ascii Bool Lia Floats.
From stdpp Require Import base list.

Local Open Scope Z_scope.

(** ** Machine integers *)

Definition UINT_WIDTH : Z := 32.
Definition SIZE_WIDTH : Z := 64.

(** [unsigned int] results are reduced modulo 2^32. *)
Definition wrap_uint (z : Z) : Z := z mod 2 ^ UINT_WIDTH.

(** [size_t] results are reduced modulo 2^64. *)
Definition wrap_size (z : Z) : Z := z mod 2 ^ SIZE_WIDTH.

(** [int] results are reduced into [-2^31, 2^31). *)
Definition wrap_int (z : Z) : Z :=
  (z + 2 ^ (UINT_WIDTH - 1)) mod 2 ^ UINT_WIDTH - 2 ^ (UINT_WIDTH - 1).

(** The greatest [int]. *)
Definition INT_MAX : Z := 2 ^ (UINT_WIDTH - 1) - 1.

(** ** Data: [typedef double datum] *)

Abbreviation datum := float.

(** A [datum] that is neither an infinity nor a NaN. *)
Definition datum_finite (d : datum) : bool :=
  match Prim2SF d with
  | S754_zero _ | S754_finite _ _ _ => true
  | S754_infinity _ | S754_nan => false
  end.

(** [(datum) xv.size()]: a size converted to [double]. *)
Definition datum_of_size (n : Z) : datum := PrimFloat.of_uint63 (Uint63.of_Z n).

(** ** BSpline/BSplineVersion.h *)

(** [BSPLINE_VERSION]. The header defines the literal and then, when
    [BSPLINE_AUTO_REVISION] is defined, includes the generated
    bspline-auto-revision.h; [auto_revision] is the replacement that
    generated header provides, if the build has one. *)
Definition BSPLINE_VERSION (auto_revision : option string) : string :=
  match auto_revision with
  | None => "v1.6-x"
  | Some revision => revision
  end.

Definition BSPLINE_URL : string := "https://github.com/NCAR/bspline".

(** ** The library interface the harness is written against *)

(** [SplineBase::BC_ZERO_ENDPOINTS], [BC_ZERO_FIRST], [BC_ZERO_SECOND]:
    the boundary-condition enumerators of BSpline/BSpline.h. *)
Inductive BoundaryCondition : Type :=
| BC_ZERO_ENDPOINTS
| BC_ZERO_FIRST
| BC_ZERO_SECOND.

Module Core.

(** Modelled from the spec: the Basis Engine and the Curve Fit of
    BSpline/BSpline.h (the classes [BSplineBase] and [BSpline]), whose
    code is not among the sources.  Only the status surface that the
    harness consults is modelled; the numerical work (matrix assembly,
    factorisation, solve) enters through the booleans that record
    whether it succeeded. *)

(** "a smoothing wavelength (real, must be positive) OR an explicit
    node count (positive integer) - exactly one determines knot
    spacing". *)
Inductive KnotSelection : Type :=
| ByWavelength (wavelength : datum)
| ByNodeCount (nodes : Z).

(** "Fit Status: ... success, or failure with a reason
    (insufficient/degenerate data, non-positive wavelength, singular
    system)"; a node count below the minimum "is likewise rejected". *)
Inductive FailureReason : Type :=
| InsufficientData
| NonPositiveWavelength
| NodeCountTooSmall
| SingularSystem
| InvalidBasis.

Inductive FitStatus : Type :=
| Success
| Failure (reason : FailureReason).

Definition succeeded (s : FitStatus) : bool :=
  match s with
  | Success => true
  | Failure _ => false
  end.

(** The configuration check of the Basis Engine: "wavelength <= 0 is a
    configuration error"; "node count below the minimum required for a
    cubic basis is likewise rejected". *)
Definition check_selection (min_nodes : Z) (k : KnotSelection) : FitStatus :=
  match k with
  | ByWavelength wavelength =>
      if (wavelength <=? 0)%float then Failure NonPositiveWavelength else Success
  | ByNodeCount nodes =>
      if nodes <? min_nodes then Failure NodeCountTooSmall else Success
  end.

(** Construction of the Basis Engine.  [min_points] and [min_nodes] are
    the minima a cubic basis needs, [factorized] tells whether the banded
    factorisation of the assembled matrix succeeded. *)
Definition setup (min_points min_nodes : Z) (factorized : bool)
    (x : list datum) (k : KnotSelection) : FitStatus :=
  match check_selection min_nodes k with
  | Failure reason => Failure reason
  | Success =>
      if Z.of_nat (length x) <? min_points then Failure InsufficientData
      else if factorized then Success
      else Failure SingularSystem
  end.

Record BasisEngine : Type := {
  abscissas : list datum;
  selection : KnotSelection;
  boundary : BoundaryCondition;
  setup_status : FitStatus
}.

Definition make_engine (min_points min_nodes : Z) (factorized : bool)
    (x : list datum) (k : KnotSelection) (bc : BoundaryCondition) : BasisEngine :=
  {| abscissas := x;
     selection := k;
     boundary := bc;
     setup_status := setup min_points min_nodes factorized x k |}.

Definition by_wavelength (k : KnotSelection) : bool :=
  match k with
  | ByWavelength _ => true
  | ByNodeCount _ => false
  end.

Definition by_node_count (k : KnotSelection) : bool :=
  match k with
  | ByWavelength _ => false
  | ByNodeCount _ => true
  end.

(** "isValid() -> bool: true iff setup succeeded and the factorization
    is usable." *)
Definition isValid (b : BasisEngine) : bool := succeeded (setup_status b).

Record CurveFit : Type := {
  engine : BasisEngine;
  ordinates : list datum;
  solve_status : FitStatus
}.

(** Construction of a Curve Fit: "a Curve Fit over an invalid Basis
    Engine immediately fails without attempting a solve"; a Y vector of
    another length than the abscissas is a configuration error;
    [solved] tells whether the banded solve succeeded. *)
Definition make_fit (b : BasisEngine) (y : list datum) (solved : bool) : CurveFit :=
  {| engine := b;
     ordinates := y;
     solve_status :=
       if negb (isValid b) then Failure InvalidBasis
       else if negb (length y =? length (abscissas b))%nat then Failure InsufficientData
       else if solved then Success
       else Failure SingularSystem |}.

(** "ok() -> bool: true iff both the underlying Basis Engine and this
    fit's solve succeeded." *)
Definition ok (f : CurveFit) : bool :=
  isValid (engine f) && succeeded (solve_status f).

End Core.

(** ** Output and library calls, as a trace *)

Inductive ostream : Type :=
| Cout
| Cerr
| OutFile (name : string).

(** What is inserted into a stream. *)
Inductive item : Type :=
| Str (s : string)
| Dbl (d : datum)
| Int (n : Z)
| Bc (bc : BoundaryCondition).

Inductive event : Type :=
| Out (os : ostream) (width : Z) (it : item)   (* os << setw(width) << it; width 0: no setw *)
| Endl (os : ostream)                          (* os << endl *)
| Usage (os : ostream)                         (* opts.usage(os, "") *)
| CallDebug (level : Z)                        (* SplineT::Debug(level) *)
| CallConstruct (x y : list datum) (wavelength : datum)
    (bc : BoundaryCondition) (num_nodes : Z)   (* SplineT spline(&x[0], x.size(), &y[0], ...) *)
| CallEvaluate (x : datum)                     (* spline.evaluate(x) *)
| CallSlope (x : datum).                       (* spline.slope(x) *)

Definition trace : Type := list event.

(** A computation that may touch memory out of bounds (undefined
    behaviour) or keep looping beyond the given number of iterations. *)
Inductive run (A : Type) : Type :=
| Finished (a : A)
| Undefined
| OutOfFuel.

Arguments Finished {A} a.
Arguments Undefined {A}.
Arguments OutOfFuel {A}.

(** ** Command line and input *)

(** One result of the option iterator [opts(iter, optarg)]: the option
    character and its argument, if it has one.  The character NUL is the
    iterator's end marker. *)
Definition optyield : Type := ascii * option string.

(** A whitespace-separated field of the input: one that [operator>>]
    converts to a [datum], or one that makes the extraction fail. *)
Inductive token : Type :=
| Num (d : datum)
| Junk.

Definition instream : Type := list token.

(** What the process can open. *)
Record Env : Type := {
  stdin : instream;
  open_ifstream : string -> option instream;   (* None: the file cannot be opened *)
  open_ofstream : string -> bool               (* false: the file cannot be opened *)
}.

Definition nl : string := String "010"%char EmptyString.

Definition _usage : string :=
  "Read an input file where each line has two space-separated floats." ++ nl ++
  "The first column is X, the second is Y.  Process the arrays of data" ++ nl ++
  "using BSpline with the parameters passed as command-line options," ++ nl ++
  "and write the result to the output." ++ nl ++
  "The output has 4 space-separated columns with a single header line" ++ nl ++
  "identifying each column." ++ nl.

(** The variables [parseCommandLine] fills in. *)
Record Args : Type := {
  infile : string;
  outfile : string;
  step : Z;
  wavelength : datum;
  bc : BoundaryCondition;
  num_nodes : Z;
  debug : bool
}.

Definition set_infile (a : Args) (v : string) : Args :=
  {| infile := v; outfile := outfile a; step := step a; wavelength := wavelength a;
     bc := bc a; num_nodes := num_nodes a; debug := debug a |}.
Definition set_outfile (a : Args) (v : string) : Args :=
  {| infile := infile a; outfile := v; step := step a; wavelength := wavelength a;
     bc := bc a; num_nodes := num_nodes a; debug := debug a |}.
Definition set_step (a : Args) (v : Z) : Args :=
  {| infile := infile a; outfile := outfile a; step := v; wavelength := wavelength a;
     bc := bc a; num_nodes := num_nodes a; debug := debug a |}.
Definition set_wavelength (a : Args) (v : datum) : Args :=
  {| infile := infile a; outfile := outfile a; step := step a; wavelength := v;
     bc := bc a; num_nodes := num_nodes a; debug := debug a |}.
Definition set_bc (a : Args) (v : BoundaryCondition) : Args :=
  {| infile := infile a; outfile := outfile a; step := step a; wavelength := wavelength a;
     bc := v; num_nodes := num_nodes a; debug := debug a |}.
Definition set_num_nodes (a : Args) (v : Z) : Args :=
  {| infile := infile a; outfile := outfile a; step := step a; wavelength := wavelength a;
     bc := bc a; num_nodes := v; debug := debug a |}.
Definition set_debug (a : Args) (v : bool) : Args :=
  {| infile := infile a; outfile := outfile a; step := step a; wavelength := wavelength a;
     bc := bc a; num_nodes := num_nodes a; debug := v |}.

(** The inner [switch (degree)] of the [-b] option. *)
Definition bc_of_degree (degree : Z) : BoundaryCondition :=
  if degree =? 0 then BC_ZERO_ENDPOINTS
  else if degree =? 1 then BC_ZERO_FIRST
  else BC_ZERO_SECOND.

(** How the option loop leaves: through [exit], or by falling out of the
    [while] with the variables and the error count. *)
Inductive loop_end : Type :=
| LoopExit (code : Z) (tr : trace)
| LoopDone (a : Args) (err : Z).

(** How [parseCommandLine] leaves: through [exit], or by returning. *)
Inductive parsed : Type :=
| Exits (code : Z) (tr : trace)
| Proceeds (a : Args).

Section Harness.

(** The C library's conversions. *)
Variable atoi : string -> Z.
Variable atof : string -> datum.

(** The BSpline library: [SplineT = BSpline<datum>], its constructor,
    [ok], [evaluate], [slope], and [SplineBase::Version()]. *)
Variable SplineT : Type.
Variable Version : string.
Variable construct :
  list datum -> list datum -> datum -> BoundaryCondition -> Z -> SplineT.
Variable ok : SplineT -> bool.
Variable evaluate : SplineT -> datum -> datum.
Variable slope : SplineT -> datum -> datum.

(** The body of [switch (optchar)]. *)
Definition option_switch (optchar : ascii) (optarg : option string)
    (a : Args) (err : Z) : loop_end :=
  if (optchar =? "h")%char then
    LoopExit 0 [Usage Cout; Out Cout 0 (Str nl); Out Cout 0 (Str _usage)]
  else if (optchar =? "v")%char then
    LoopExit 0 [Out Cout 0 (Str "BSpline version: "); Out Cout 0 (Str Version);
                Endl Cout; Out Cout 0 (Str BSPLINE_URL); Endl Cout]
  else if (optchar =? "i")%char then
    match optarg with
    | Some arg => LoopDone (set_infile a arg) err
    | None => LoopDone a (wrap_uint (err + 1))
    end
  else if (optchar =? "o")%char then
    match optarg with
    | Some arg => LoopDone (set_outfile a arg) err
    | None => LoopDone a (wrap_uint (err + 1))
    end
  else if (optchar =? "s")%char then
    match optarg with
    | Some arg => LoopDone (set_step a (atoi arg)) err
    | None => LoopDone a (wrap_uint (err + 1))
    end
  else if (optchar =? "w")%char then
    match optarg with
    | Some arg => LoopDone (set_wavelength a (atof arg)) err
    | None => LoopDone a (wrap_uint (err + 1))
    end
  else if (optchar =? "b")%char then
    match optarg with
    | Some arg => LoopDone (set_bc a (bc_of_degree (atoi arg))) err
    | None => LoopDone a (wrap_uint (err + 1))
    end
  else if (optchar =? "n")%char then
    match optarg with
    | Some arg => LoopDone (set_num_nodes a (atoi arg)) err
    | None => LoopDone a (wrap_uint (err + 1))
    end
  else if (optchar =? "d")%char then
    LoopDone (set_debug a true) err
  else
    LoopDone a (wrap_uint (err + 1)).

(** [while (optchar = opts(iter, optarg)) switch (optchar) ...]. *)
Fixpoint option_loop (ys : list optyield) (a : Args) (err : Z) : loop_end :=
  match ys with
  | [] => LoopDone a err
  | (optchar, optarg) :: rest =>
      if (optchar =? "000")%char then LoopDone a err
      else
        match option_switch optchar optarg a err with
        | LoopExit code tr => LoopExit code tr
        | LoopDone a' err' => option_loop rest a' err'
        end
  end.

(** The values the variables hold when the loop starts; [infile] and
    [outfile] are the caller's. *)
Definition initial_args (infile outfile : string) : Args :=
  {| infile := infile; outfile := outfile; step := 0; wavelength := (-1)%float;
     bc := BC_ZERO_SECOND; num_nodes := 0; debug := false |}.

Definition parseCommandLine (ys : list optyield) (infile outfile : string) : parsed :=
  match option_loop ys (initial_args infile outfile) 0 with
  | LoopExit code tr => Exits code tr
  | LoopDone a err =>
      let err := if (wavelength a <? 0)%float then wrap_uint (err + 1) else err in
      if err =? 0 then Proceeds a else Exits 1 [Usage Cerr]
  end.

(** The reading loop of [main]: [i] counts the values read into [f],
    [base] is the first of them.  The counter is an [int]: its [++i] at
    [INT_MAX] is an overflow, which C++ leaves undefined and which is
    written here as the wrap-around of the machine model. *)
Record ReadState : Type := {
  rd_i : Z;
  rd_base : datum;
  rd_x : list datum;
  rd_y : list datum
}.

Fixpoint read_data (s : instream) (i : Z) (base : datum) (x y : list datum)
    : ReadState :=
  match s with
  | Num f :: s1 =>
      let i := wrap_int (i + 1) in
      let base := if i =? 1 then f else base in
      let f := (f - base)%float in
      match s1 with
      | Num g :: s2 => read_data s2 i base (x ++ [f]) (y ++ [g])
      | _ => {| rd_i := i; rd_base := base; rd_x := x; rd_y := y |}
      end
  | _ => {| rd_i := i; rd_base := base; rd_x := x; rd_y := y |}
  end.

(** The subsampling loop of [main].  The iterators [xi], [yi], [xo],
    [yo] are kept as offsets from [begin()]; a dereference outside the
    vector is undefined. *)
Fixpoint subsample_loop (fuel : nat) (step : Z) (x y : list datum)
    (xi yi xo yo : nat) : run (list datum * list datum * nat * nat) :=
  match fuel with
  | O => OutOfFuel
  | S fuel =>
      if (xo <? length x)%nat && (yo <? length y)%nat then
        match x !! xo, y !! yo with
        | Some vx, Some vy =>
            if (xi <? length x)%nat && (yi <? length y)%nat then
              subsample_loop fuel step (<[xi := vx]> x) (<[yi := vy]> y)
                (S xi) (S yi) (xo + Z.to_nat step)%nat (yo + Z.to_nat step)%nat
            else Undefined
        | _, _ => Undefined
        end
      else Finished (x, y, xi, yi)
  end.

(** [if (step > 1) { while ... ; x.resize(xi - x.begin()); y.resize(...) }] *)
Definition subsample (fuel : nat) (step : Z) (x y : list datum)
    : run (list datum * list datum) :=
  if 1 <? step then
    match subsample_loop fuel step x y 0 0 0 0 with
    | Finished (x', y', xi, yi) => Finished (resize xi 0%float x', resize yi 0%float y')
    | Undefined => Undefined
    | OutOfFuel => OutOfFuel
    end
  else Finished (x, y).

(** [DumpSpline] *)
Definition evalmid : bool := false.

Definition header (out : ostream) : trace :=
  [Out out 10 (Str "x"); Out out 10 (Str "y"); Out out 15 (Str "spline(x)");
   Out out 20 (Str "slope(spline(x))"); Endl out].

(** One pass through the body of the [for] loop: the events of the row
    written for the abscissa [x] and ordinate [y]. *)
Definition row (spline : SplineT) (out : ostream) (x y : datum) : trace :=
  [Out out 10 (Dbl x); Out out 10 (Dbl y);
   CallEvaluate x; Out out 15 (Dbl (evaluate spline x));
   CallSlope x; Out out 20 (Dbl (slope spline x)); Endl out].

(** [for (unsigned int i = ...; i < 2*xv.size()-1; i += (2 - int(evalmid)))]:
    the bound is computed in [size_t], [i] in [unsigned int]. *)
Fixpoint dump_loop (fuel : nat) (xv yv : list datum) (spline : SplineT)
    (out : ostream) (i : Z) (variance : datum) : run (datum * trace) :=
  match fuel with
  | O => OutOfFuel
  | S fuel =>
      if i <? wrap_size (2 * Z.of_nat (length xv) - 1) then
        let lo := Z.to_nat (Z.shiftr i 1) in
        let hi := Z.to_nat (wrap_uint (Z.shiftr i 1 + i mod 2)) in
        match xv !! lo, xv !! hi, yv !! lo, yv !! hi with
        | Some x1, Some x2, Some y1, Some y2 =>
            let x := ((x1 + x2) / 2)%float in
            let y := ((y1 + y2) / 2)%float in
            let ys := evaluate spline x in
            let variance :=
              if i mod 2 =? 0 then (variance + (ys - y1) * (ys - y1))%float
              else variance in
            match dump_loop fuel xv yv spline out
                    (wrap_uint (i + (2 - Z.b2z evalmid))) variance with
            | Finished (v, tr) => Finished (v, row spline out x y ++ tr)
            | Undefined => Undefined
            | OutOfFuel => OutOfFuel
            end
        | _, _, _, _ => Undefined
        end
      else Finished (variance, [])
  end.

Definition DumpSpline (fuel : nat) (xv yv : list datum) (spline : SplineT)
    (out : ostream) (debug : bool) : run trace :=
  match dump_loop fuel xv yv spline out 0 0%float with
  | Finished (variance, rows) =>
      let variance := (variance / datum_of_size (Z.of_nat (length xv)))%float in
      Finished (header out ++ rows ++
                (if debug
                 then [Out Cerr 0 (Str "Variance: "); Out Cerr 0 (Dbl variance); Endl Cerr]
                 else []))
  | Undefined => Undefined
  | OutOfFuel => OutOfFuel
  end.

(** [main]: the exit status and the trace of the process. *)
Definition nonempty (s : string) : bool := (0 <? String.length s)%nat.

(** [if (debug) cout << "Using step interval " << ...] *)
Definition report_args (a : Args) : trace :=
  if debug a then
    [Out Cout 0 (Str "Using step interval "); Out Cout 0 (Int (step a));
     Out Cout 0 (Str ", cutoff frequency "); Out Cout 0 (Dbl (wavelength a));
     Out Cout 0 (Str ", number of nodes "); Out Cout 0 (Int (num_nodes a));
     Out Cout 0 (Str ", and boundary condition type "); Out Cout 0 (Bc (bc a));
     Out Cout 0 (Str nl)]
  else [].

Definition unable_to_open (name : string) : trace :=
  [Out Cerr 0 (Str "Unable to open "); Out Cerr 0 (Str name); Out Cerr 0 (Str nl)].

(** [if (debug) SplineT::Debug(1); SplineT spline(&x[0], x.size(), &y[0],
    wavelength, bc, num_nodes);] *)
Definition setup_spline (a : Args) (x y : list datum) : trace :=
  (if debug a then [CallDebug 1] else []) ++
  [CallConstruct x y (wavelength a) (bc a) (num_nodes a)].

Definition setup_failed : trace :=
  [Out Cerr 0 (Str "Spline setup failed."); Endl Cerr].

Definition main (fuel : nat) (ys : list optyield) (env : Env) : run (Z * trace) :=
  match parseCommandLine ys "" "" with
  | Exits code tr => Finished (code, tr)
  | Proceeds a =>
      match (if nonempty (infile a) then open_ifstream env (infile a)
             else Some (stdin env)) with
      | None => Finished (1, report_args a ++ unable_to_open (infile a))
      | Some ins =>
          if nonempty (outfile a) && negb (open_ofstream env (outfile a)) then
            Finished (1, report_args a ++ unable_to_open (outfile a))
          else
            let outstream := if nonempty (outfile a) then OutFile (outfile a) else Cout in
            let r := read_data ins 0 0%float [] [] in
            match subsample fuel (step a) (rd_x r) (rd_y r) with
            | Finished (x, y) =>
                let spline := construct x y (wavelength a) (bc a) (num_nodes a) in
                if ok spline then
                  match DumpSpline fuel x y spline outstream (debug a) with
                  | Finished tr_dump =>
                      Finished (0, report_args a ++ setup_spline a x y ++ tr_dump)
                  | Undefined => Undefined
                  | OutOfFuel => OutOfFuel
                  end
                else
                  Finished (0, report_args a ++ setup_spline a x y ++ setup_failed)
            | Undefined => Undefined
            | OutOfFuel => OutOfFuel
            end
      end
  end.

End Harness.

(** ** A stand-in library, to run the harness on examples *)

Module Example.

(** Decimal digits, read as [atoi] reads them. *)
Fixpoint digits (s : string) (acc : Z) : Z :=
  match s with
  | EmptyString => acc
  | String c rest =>
      let d := Z.of_N (N_of_ascii c) - 48 in
      if (0 <=? d) && (d <=? 9) then digits rest (10 * acc + d) else acc
  end.

Definition atoi (s : string) : Z :=
  match s with
  | String "-"%char rest => - digits rest 0
  | _ => digits s 0
  end.

(** [atof] on integer literals. *)
Definition atof (s : string) : datum :=
  match s with
  | String "-"%char rest => (- PrimFloat.of_uint63 (Uint63.of_Z (digits rest 0)))%float
  | _ => PrimFloat.of_uint63 (Uint63.of_Z (digits s 0))
  end.

(** A library built on the status model of [Core]: at least four points
    and four nodes, the node count chosen when it is at least 2, a
    factorisation and a solve that succeed, and an identity curve. *)
Definition construct (x y : list datum) (wavelength : datum)
    (bc : BoundaryCondition) (num_nodes : Z) : Core.CurveFit :=
  Core.make_fit
    (Core.make_engine 4 4 true x
       (if 2 <=? num_nodes then Core.ByNodeCount num_nodes
        else Core.ByWavelength wavelength) bc)
    y true.

Definition evaluate (f : Core.CurveFit) (x : datum) : datum := x.
Definition slope (f : Core.CurveFit) (x : datum) : datum := 1%float.

Definition parse := parseCommandLine atoi atof (BSPLINE_VERSION None).
Definition run_main :=
  main atoi atof Core.CurveFit (BSPLINE_VERSION None) construct Core.ok evaluate slope.

Definition env (input : instream) : Env :=
  {| stdin := input;
     open_ifstream := fun _ => None;
     open_ofstream := fun _ => false |}.

Definition line (n : Z) : instream :=
  flat_map (fun k => [Num (PrimFloat.of_uint63 (Uint63.of_Z (Z.of_nat k + 10)));
                      Num (PrimFloat.of_uint63 (Uint63.of_Z (Z.of_nat k)))])
           (seq 0 (Z.to_nat n)).

End Example.

(** ** Vocabulary of the statements *)

(** The loop runs through [pre]: it meets neither the end marker nor an
    option that exits ([-h], [-v]). *)
Definition runs_through (pre : list optyield) : bool :=
  forallb (fun y => negb (fst y =? "000")%char && negb (fst y =? "h")%char
                    && negb (fst y =? "v")%char) pre.

Definition has_arg (optarg : option string) : bool :=
  match optarg with
  | Some _ => true
  | None => false
  end.

(** Option [c] is given with an argument somewhere in [ys]. *)
Definition given (c : ascii) (ys : list optyield) : bool :=
  existsb (fun y => (fst y =? c)%char && has_arg (snd y)) ys.

Definition is_construct (e : event) : bool :=
  match e with
  | CallConstruct _ _ _ _ _ => true
  | _ => false
  end.

(** The events only [DumpSpline] produces on its rows. *)
Definition is_evaluation (e : event) : bool :=
  match e with
  | CallEvaluate _ | CallSlope _ => true
  | _ => false
  end.

(** A cell of the table [DumpSpline] writes: the output that goes
    through [setw]. *)
Definition is_table_output (e : event) : bool :=
  match e with
  | Out _ width _ => negb (width =? 0)
  | _ => false
  end.

(** The state of a vector in the subsampling loop after [k] rounds with
    stride [s]: [l] has the elements of the original [l0] at the indices
    0, s, ..., (k-1)s in its first [k] places, and is [l0] from there on. *)
Definition sampled (s k : nat) (l0 l : list datum) : Prop :=
  length l = length l0 /\
  (forall j, (j < k)%nat -> l !! j = l0 !! (j * s)%nat) /\
  (forall j, (k <= j)%nat -> l !! j = l0 !! j).

(** The complete pairs at the head of the input, the first value of
    the input, and an input that starts with [n] times the pair [f g]. *)
Fixpoint pairs (s : instream) : list (datum * datum) :=
  match s with
  | Num f :: Num g :: rest => (f, g) :: pairs rest
  | _ => []
  end.

Definition first_value (s : instream) : datum :=
  match s with
  | Num f :: _ => f
  | _ => 0%float
  end.

Fixpoint repeat_pair (n : nat) (f g : datum) (rest : instream) : instream :=
  match n with
  | O => rest
  | S n => Num f :: Num g :: repeat_pair n f g rest
  end.

(** The rows of the table for the samples [xv], [yv], one per sample,
    each computed from the sample itself, [x1 = x2 = xv[k]] and
    [y1 = y2 = yv[k]]; and the sum of squared residuals accumulated over
    them. *)
Fixpoint table_rows (SplineT : Type) (evaluate slope : SplineT -> datum -> datum)
    (spline : SplineT) (out : ostream) (xv yv : list datum) : list trace :=
  match xv, yv with
  | x :: xv', y :: yv' =>
      row SplineT evaluate slope spline out ((x + x) / 2)%float ((y + y) / 2)%float
      :: table_rows SplineT evaluate slope spline out xv' yv'
  | _, _ => []
  end.

Fixpoint squares (SplineT : Type) (evaluate : SplineT -> datum -> datum)
    (spline : SplineT) (xv yv : list datum) (variance : datum) : datum :=
  match xv, yv with
  | x :: xv', y :: yv' =>
      let ys := evaluate spline ((x + x) / 2)%float in
      squares SplineT evaluate spline xv' yv' (variance + (ys - y) * (ys - y))%float
  | _, _ => variance
  end.

(** [if (debug) cerr << "Variance: " << variance << endl;] *)
Definition variance_report (debug : bool) (variance : datum) : trace :=
  if debug
  then [Out Cerr 0 (Str "Variance: "); Out Cerr 0 (Dbl variance); Endl Cerr]
  else [].

(** What [-v] writes. *)
Definition version_report (Version : string) : trace :=
  [Out Cout 0 (Str "BSpline version: "); Out Cout 0 (Str Version); Endl Cout;
   Out Cout 0 (Str BSPLINE_URL); Endl Cout].

(** ** The option table and further vocabulary *)

(** [optv]: the option specifications handed to [Options]; the NULL that
    ends the array is the end of the list.  Each entry starts with the
    option character, followed by ':' when the option takes a value and
    by '|' when it is a flag. *)
Definition optv : list string :=
  [ "i:input       <input file> (defaults to stdin)";
    "o:output      <output file> (defaults to stdout)";
    "w:wavelength  <spline wavelength> (required)";
    "s:step        <step interval>";
    "b:bcdegree    <bc derivative degree (0,1,2)> (default is 0)";
    "n:nodes       <specify number of nodes (n)> (default is 0)";
    "d|debug       <enable diagnostic output>";
    "v|version     <print version information>";
    "h|help        <print this help>" ]%string.

(** The entry of a table for the option character [c]: [Some true] for
    an option with a value, [Some false] for a flag, [None] when the
    table has no entry for [c]. *)
Fixpoint optv_entry (table : list string) (c : ascii) : option bool :=
  match table with
  | [] => None
  | String c0 (String kind _) :: rest =>
      if (c0 =? c)%char then Some (kind =? ":")%char else optv_entry rest c
  | _ :: rest => optv_entry rest c
  end.

(** A result of the option iterator that the switch counts as an error:
    a character without entry in [optv], or an option with a value whose
    argument is missing. *)
Definition is_error (y : optyield) : bool :=
  match optv_entry optv (fst y) with
  | None => true
  | Some true => negb (has_arg (snd y))
  | Some false => false
  end.

(** The results the loop body sees: those before the end marker. *)
Fixpoint seen (ys : list optyield) : list optyield :=
  match ys with
  | [] => []
  | y :: rest => if (fst y =? "000")%char then [] else y :: seen rest
  end.

(** The stream an event writes to, if it writes. *)
Definition stream_of (e : event) : option ostream :=
  match e with
  | Out os _ _ | Endl os | Usage os => Some os
  | _ => None
  end.

Definition ostream_eqb (a b : ostream) : bool :=
  match a, b with
  | Cout, Cout | Cerr, Cerr => true
  | OutFile n, OutFile m => String.eqb n m
  | _, _ => false
  end.

(** The event writes to no stream but [os]. *)
Definition only_on (os : ostream) (e : event) : bool :=
  match stream_of e with
  | Some os' => ostream_eqb os' os
  | None => true
  end.

(** What [-h] writes. *)
Definition help_report : trace :=
  [Usage Cout; Out Cout 0 (Str nl); Out Cout 0 (Str _usage)].

(** * Proofs *)

(** ** The option loop *)

Section OptionLoop.

Variable atoi : string -> Z.
Variable atof : string -> datum.
Variable Version : string.

Local Abbreviation option_switch' := (option_switch atoi atof Version).
Local Abbreviation option_loop' := (option_loop atoi atof Version).
Local Abbreviation parseCommandLine' := (parseCommandLine atoi atof Version).

Ltac switch_cases :=
  unfold option_switch;
  repeat match goal with
         | |- context [(?c =? ?k)%char] => destruct (c =? k)%char eqn:?
         end;
  try match goal with
      | |- context [match ?arg with Some _ => _ | None => _ end] => destruct arg
      end.

(** A pass through the switch that does not exit changes only the
    variable of its option, and counts at most one error. *)
Lemma option_switch_done c arg a err a' err' :
  option_switch' c arg a err = LoopDone a' err' ->
  (err' = err \/ err' = wrap_uint (err + 1)) /\
  ((c =? "w")%char && has_arg arg = false -> wavelength a' = wavelength a) /\
  ((c =? "b")%char && has_arg arg = false -> bc a' = bc a) /\
  ((c =? "n")%char && has_arg arg = false -> num_nodes a' = num_nodes a).
Proof.
  switch_cases; intros H; inversion H; subst; clear H; simpl;
    repeat split; auto; intros; discriminate.
Qed.

Lemma option_switch_exit c arg a err code tr :
  option_switch' c arg a err = LoopExit code tr ->
  code = 0 /\
  ((c = "h"%char /\ tr = [Usage Cout; Out Cout 0 (Str nl); Out Cout 0 (Str _usage)])
   \/ (c = "v"%char /\ tr = version_report Version)).
Proof.
  switch_cases; intros H; inversion H; subst; clear H; split; auto;
    match goal with
    | E : (_ =? _)%char = true |- _ => apply Ascii.eqb_eq in E; subst; auto
    end.
Qed.

Lemma option_switch_version arg a err :
  option_switch' "v" arg a err = LoopExit 0 (version_report Version).
Proof. reflexivity. Qed.

Lemma option_switch_bc arg a err :
  option_switch' "b" (Some arg) a err
  = LoopDone (set_bc a (bc_of_degree (atoi arg))) err.
Proof. reflexivity. Qed.

(** Through a prefix that neither ends nor exits, the loop reaches the
    rest of the options in some state. *)
Lemma option_loop_through pre :
  runs_through pre = true ->
  forall a err, exists a' err',
    (forall rest, option_loop' (pre ++ rest) a err = option_loop' rest a' err') /\
    (given "b" pre = false -> bc a' = bc a).
Proof.
  induction pre as [|[c arg] pre IH]; intros Hpre a err.
  - exists a, err. split; auto.
  - simpl in Hpre.
    apply andb_prop in Hpre as [Hc Hpre].
    apply andb_prop in Hc as [Hc Hv]. apply andb_prop in Hc as [Hnul Hh].
    apply negb_true_iff in Hnul, Hh, Hv.
    destruct (option_switch' c arg a err) as [code tr|a1 err1] eqn:Hs.
    + apply option_switch_exit in Hs as [_ [[-> _]|[-> _]]]; discriminate.
    + destruct (IH Hpre a1 err1) as (a' & err' & Hrest & Hbc).
      exists a', err'. split.
      * intros rest. simpl. rewrite Hnul, Hs. apply Hrest.
      * simpl. intros Hg. apply orb_false_iff in Hg as [Hg1 Hg2].
        rewrite (Hbc Hg2).
        apply option_switch_done in Hs. tauto.
Qed.

(** The variables and the error count when the loop falls out. *)
Lemma option_loop_done ys :
  forall a err a' err',
    option_loop' ys a err = LoopDone a' err' ->
    0 <= err -> err + Z.of_nat (length ys) < 2 ^ 32 ->
    (err <= err' <= err + Z.of_nat (length ys)).
Proof.
  induction ys as [|[c arg] ys IH]; intros a err a' err' H Herr Hlen.
  - simpl in H. inversion H; subst. simpl. lia.
  - simpl in H. cbn [length] in Hlen |- *. rewrite Nat2Z.inj_succ in Hlen |- *.
    destruct (c =? "000")%char.
    + inversion H; subst. lia.
    + destruct (option_switch' c arg a err) as [code tr|a1 err1] eqn:Hs;
        [discriminate|].
      apply option_switch_done in Hs as [Hs _].
      assert (err <= err1 <= err + 1) as Hb.
      { destruct Hs as [->| ->]; [lia|].
        unfold wrap_uint, UINT_WIDTH. rewrite Z.mod_small; lia. }
      apply IH in H; lia.
Qed.

(** An option that is not given with an argument leaves its variable
    as it was. *)
Lemma option_loop_keeps ys :
  forall a err a' err',
    option_loop' ys a err = LoopDone a' err' ->
    (given "w" ys = false -> wavelength a' = wavelength a) /\
    (given "b" ys = false -> bc a' = bc a) /\
    (given "n" ys = false -> num_nodes a' = num_nodes a).
Proof.
  induction ys as [|[c arg] ys IH]; intros a err a' err' H.
  - inversion H; subst. auto.
  - simpl in H. unfold given. cbn [existsb fst snd].
    destruct (c =? "000")%char.
    + inversion H; subst. auto.
    + destruct (option_switch' c arg a err) as [code tr|a1 err1] eqn:Hs;
        [discriminate|].
      apply option_switch_done in Hs as (_ & Hw & Hb & Hn).
      apply IH in H as (IHw & IHb & IHn).
      repeat split; intros Hg; apply orb_false_iff in Hg as [Hg1 Hg2].
      * rewrite (IHw Hg2). auto.
      * rewrite (IHb Hg2). auto.
      * rewrite (IHn Hg2). auto.
Qed.

(** When the loop falls out with a negative wavelength, the function
    leaves through [exit(1)] after the usage message. *)
Lemma parse_negative_wavelength ys infile outfile a err :
  Z.of_nat (length ys) < 2 ^ 32 - 1 ->
  option_loop' ys (initial_args infile outfile) 0 = LoopDone a err ->
  (wavelength a <? 0)%float = true ->
  parseCommandLine' ys infile outfile = Exits 1 [Usage Cerr].
Proof.
  intros Hlen Hloop Hneg. unfold parseCommandLine.
  rewrite Hloop, Hneg.
  apply option_loop_done in Hloop; [|lia|lia].
  unfold wrap_uint, UINT_WIDTH. rewrite Z.mod_small by lia.
  destruct (err + 1 =? 0) eqn:E; [lia|reflexivity].
Qed.

(** When the function returns, it returns the variables of the loop. *)
Lemma parse_proceeds ys infile outfile a :
  parseCommandLine' ys infile outfile = Proceeds a ->
  exists err, option_loop' ys (initial_args infile outfile) 0 = LoopDone a err.
Proof.
  unfold parseCommandLine.
  destruct (option_loop' ys _ 0) as [code tr|a1 err1]; [discriminate|].
  destruct (_ =? 0); [|discriminate].
  intros H; inversion H; subst. eauto.
Qed.

Lemma parse_proceeds_wavelength ys infile outfile a :
  Z.of_nat (length ys) < 2 ^ 32 - 1 ->
  parseCommandLine' ys infile outfile = Proceeds a ->
  (wavelength a <? 0)%float = false.
Proof.
  intros Hlen Hp.
  destruct (parse_proceeds _ _ _ _ Hp) as [err Hloop].
  destruct (wavelength a <? 0)%float eqn:Hneg; [|reflexivity].
  rewrite (parse_negative_wavelength _ _ _ _ _ Hlen Hloop Hneg) in Hp.
  discriminate.
Qed.

Lemma parse_version pre arg post infile outfile :
  runs_through pre = true ->
  parseCommandLine' (pre ++ ("v"%char, arg) :: post) infile outfile
  = Exits 0 (version_report Version).
Proof.
  intros Hpre. unfold parseCommandLine.
  destruct (option_loop_through pre Hpre (initial_args infile outfile) 0)
    as (a' & err' & Hrest & _).
  rewrite Hrest. reflexivity.
Qed.

End OptionLoop.

(** The version string enters the option switch in the [-v] case only. *)
Lemma option_switch_version_free atoi atof V1 V2 c arg a err :
  (c =? "v")%char = false ->
  option_switch atoi atof V1 c arg a err = option_switch atoi atof V2 c arg a err.
Proof.
  intros Hv. unfold option_switch. rewrite Hv. reflexivity.
Qed.

Lemma option_loop_version_free atoi atof V1 V2 ys :
  existsb (fun y => (fst y =? "v")%char) ys = false ->
  forall a err,
    option_loop atoi atof V1 ys a err = option_loop atoi atof V2 ys a err.
Proof.
  induction ys as [|[c arg] ys IH]; intros Hv a err; [reflexivity|].
  simpl in Hv. apply orb_false_iff in Hv as [Hc Hys].
  simpl. rewrite (option_switch_version_free atoi atof V1 V2 c arg a err Hc).
  destruct (c =? "000")%char; [reflexivity|].
  destruct (option_switch atoi atof V2 c arg a err); [reflexivity|].
  apply IH, Hys.
Qed.

(** C7: the version is the literal "v1.6-x" unless an auto-revision
    build replaces it; an option [-v] that the loop reaches makes
    [parseCommandLine] write the version string and the repository URL
    and leave through [exit(0)], so that [main] ends with status 0 and a
    trace that holds no constructor call; and on a command line without
    [-v] the run of [main] does not depend on the version string. *)
Theorem version_option_reports_and_exits
    (atoi : string -> Z) (atof : string -> datum) (SplineT : Type)
    (Version : string)
    (construct : list datum -> list datum -> datum -> BoundaryCondition -> Z -> SplineT)
    (ok : SplineT -> bool) (evaluate slope : SplineT -> datum -> datum)
    (pre post : list optyield) (arg : option string) (fuel : nat) (env : Env) :
  runs_through pre = true ->
  BSPLINE_VERSION None = "v1.6-x"%string /\
  (forall revision, BSPLINE_VERSION (Some revision) = revision) /\
  parseCommandLine atoi atof Version (pre ++ ("v"%char, arg) :: post) "" ""
  = Exits 0 (version_report Version) /\
  main atoi atof SplineT Version construct ok evaluate slope fuel
    (pre ++ ("v"%char, arg) :: post) env
  = Finished (0, version_report Version) /\
  forallb (fun e => negb (is_construct e)) (version_report Version) = true /\
  (forall Version' ys,
      existsb (fun y => (fst y =? "v")%char) ys = false ->
      main atoi atof SplineT Version' construct ok evaluate slope fuel ys env
      = main atoi atof SplineT Version construct ok evaluate slope fuel ys env).
Proof.
  intros Hpre.
  pose proof (parse_version atoi atof Version pre arg post "" "" Hpre) as Hparse.
  repeat split; auto.
  - unfold main. rewrite Hparse. reflexivity.
  - intros Version' ys Hv. unfold main, parseCommandLine.
    rewrite (option_loop_version_free atoi atof Version' Version ys Hv).
    reflexivity.
Qed.

Lemma version_option_witness :
  Example.parse [("d"%char, None); ("v"%char, None); ("w"%char, Some "5"%string)] "" ""
  = Exits 0 (version_report "v1.6-x") /\
  Example.run_main 0 [("d"%char, None); ("v"%char, None); ("w"%char, Some "5"%string)]
    (Example.env [])
  = Finished (0, version_report "v1.6-x").
Proof.
  pose proof (version_option_reports_and_exits
                Example.atoi Example.atof Core.CurveFit (BSPLINE_VERSION None)
                Example.construct Core.ok Example.evaluate Example.slope
                [("d"%char, None)] [("w"%char, Some "5"%string)] None 0%nat
                (Example.env []) eq_refl) as (_ & _ & Hparse & Hmain & _).
  split; [exact Hparse | exact Hmain].
Defined.

(** C2: the boundary condition is one of three enumerators; the variable
    starts as [BC_ZERO_SECOND] and is still that when [parseCommandLine]
    returns from a command line with no [-b] argument; the last [-b]
    argument decides it otherwise, degree 0 giving [BC_ZERO_ENDPOINTS],
    degree 1 [BC_ZERO_FIRST] and every other integer, 2 included,
    [BC_ZERO_SECOND]. *)
Theorem boundary_condition_selection
    (atoi : string -> Z) (atof : string -> datum) (Version : string) :
  (forall b : BoundaryCondition,
      b = BC_ZERO_ENDPOINTS \/ b = BC_ZERO_FIRST \/ b = BC_ZERO_SECOND) /\
  (forall infile outfile, bc (initial_args infile outfile) = BC_ZERO_SECOND) /\
  (forall ys infile outfile a,
      given "b" ys = false ->
      parseCommandLine atoi atof Version ys infile outfile = Proceeds a ->
      bc a = BC_ZERO_SECOND) /\
  (forall pre arg post infile outfile a,
      runs_through pre = true ->
      given "b" post = false ->
      parseCommandLine atoi atof Version (pre ++ ("b"%char, Some arg) :: post)
        infile outfile = Proceeds a ->
      bc a = bc_of_degree (atoi arg)) /\
  bc_of_degree 0 = BC_ZERO_ENDPOINTS /\
  bc_of_degree 1 = BC_ZERO_FIRST /\
  bc_of_degree 2 = BC_ZERO_SECOND /\
  (forall degree, degree <> 0 -> degree <> 1 -> bc_of_degree degree = BC_ZERO_SECOND).
Proof.
  repeat split; auto.
  - destruct b; auto.
  - intros ys infile outfile a Hb Hp.
    apply parse_proceeds in Hp as [err Hloop].
    apply option_loop_keeps in Hloop as (_ & Hbc & _).
    rewrite Hbc; auto.
  - intros pre arg post infile outfile a Hpre Hpost Hp.
    apply parse_proceeds in Hp as [err Hloop].
    destruct (option_loop_through atoi atof Version pre Hpre
                (initial_args infile outfile) 0) as (a1 & err1 & Hrest & _).
    rewrite Hrest in Hloop. simpl in Hloop.
    apply option_loop_keeps in Hloop as (_ & Hbc & _).
    rewrite Hbc; auto.
  - intros degree H0 H1. unfold bc_of_degree.
    destruct (Z.eqb_spec degree 0); [contradiction|].
    destruct (Z.eqb_spec degree 1); [contradiction|reflexivity].
Qed.

Lemma boundary_condition_witness :
  (exists a,
      Example.parse [("w"%char, Some "5"%string)] "" "" = Proceeds a /\
      bc a = BC_ZERO_SECOND) /\
  (exists a,
      Example.parse [("w"%char, Some "5"%string); ("b"%char, Some "1"%string);
                     ("d"%char, None)] "" "" = Proceeds a /\
      bc a = BC_ZERO_FIRST).
Proof.
  pose proof (boundary_condition_selection Example.atoi Example.atof
                (BSPLINE_VERSION None)) as (_ & _ & Hdefault & Hlast & _).
  split; eexists; (split; [reflexivity|]).
  - exact (Hdefault [("w"%char, Some "5"%string)] ""%string ""%string _ eq_refl eq_refl).
  - exact (Hlast [("w"%char, Some "5"%string)] "1"%string [("d"%char, None)]
             ""%string ""%string _ eq_refl eq_refl eq_refl).
Defined.

(** ** The trace of [main] *)

Section MainTrace.

Variable atoi : string -> Z.
Variable atof : string -> datum.
Variable SplineT : Type.
Variable Version : string.
Variable construct :
  list datum -> list datum -> datum -> BoundaryCondition -> Z -> SplineT.
Variable ok : SplineT -> bool.
Variable evaluate : SplineT -> datum -> datum.
Variable slope : SplineT -> datum -> datum.

Local Abbreviation parseCommandLine' := (parseCommandLine atoi atof Version).
Local Abbreviation dump_loop' := (dump_loop SplineT evaluate slope).
Local Abbreviation DumpSpline' := (DumpSpline SplineT evaluate slope).
Local Abbreviation main' :=
  (main atoi atof SplineT Version construct ok evaluate slope).

Lemma main_exits fuel ys env code tr :
  parseCommandLine' ys "" "" = Exits code tr ->
  main' fuel ys env = Finished (code, tr).
Proof. intros H. unfold main. rewrite H. reflexivity. Qed.

Lemma report_args_no_call a :
  List.filter is_construct (report_args a) = [] /\
  List.filter is_evaluation (report_args a) = [] /\
  List.filter is_table_output (report_args a) = [].
Proof. unfold report_args. destruct (debug a); auto. Qed.

Lemma setup_spline_calls a x y :
  List.filter is_construct (setup_spline a x y)
  = [CallConstruct x y (wavelength a) (bc a) (num_nodes a)] /\
  List.filter is_evaluation (setup_spline a x y) = [] /\
  List.filter is_table_output (setup_spline a x y) = [].
Proof. unfold setup_spline. destruct (debug a); auto. Qed.

Lemma dump_loop_no_construct fuel xv yv spline out :
  forall i v v' tr,
    dump_loop' fuel xv yv spline out i v = Finished (v', tr) ->
    List.filter is_construct tr = [].
Proof.
  induction fuel as [|fuel IH]; intros i v v' tr H; [discriminate|].
  simpl in H.
  destruct (i <? _); [|inversion H; reflexivity].
  repeat match type of H with
         | match ?o with Some _ => _ | None => _ end = _ =>
             destruct o; [|discriminate]
         end.
  match type of H with
  | match ?r with Finished _ => _ | Undefined => _ | OutOfFuel => _ end = _ =>
      destruct r as [[v1 tr1]| |] eqn:Hr; [|discriminate|discriminate]
  end.
  inversion H; subst. simpl. eauto.
Qed.

Lemma DumpSpline_no_construct fuel xv yv spline out dbg tr :
  DumpSpline' fuel xv yv spline out dbg = Finished tr ->
  List.filter is_construct tr = [].
Proof.
  unfold DumpSpline.
  destruct (dump_loop' fuel xv yv spline out 0 0%float) as [[v rows]| |] eqn:Hl;
    [|discriminate|discriminate].
  intros H; inversion H; subst.
  apply dump_loop_no_construct in Hl.
  simpl. rewrite List.filter_app, Hl. destruct dbg; reflexivity.
Qed.

(** Every run of [main'] that ends has one of four shapes: the parser
    exited; a file could not be opened; the spline was not usable; the
    spline was tabulated. *)
Lemma main_shapes fuel ys env code tr :
  main' fuel ys env = Finished (code, tr) ->
  parseCommandLine' ys "" "" = Exits code tr \/
  exists a, parseCommandLine' ys "" "" = Proceeds a /\
    ((exists name, code = 1 /\ tr = report_args a ++ unable_to_open name) \/
     exists x y,
       let spline := construct x y (wavelength a) (bc a) (num_nodes a) in
       code = 0 /\
       ((ok spline = false /\
         tr = report_args a ++ setup_spline a x y ++ setup_failed) \/
        (ok spline = true /\
         exists out tr_dump,
           DumpSpline' fuel x y spline out (debug a) = Finished tr_dump /\
           tr = report_args a ++ setup_spline a x y ++ tr_dump))).
Proof.
  unfold main.
  destruct (parseCommandLine' ys "" "") as [c t|a] eqn:Hp.
  - intros H; inversion H; subst. now left.
  - intros H. right. exists a. split; [reflexivity|].
    destruct (if nonempty (infile a) then _ else _) as [ins|].
    2:{ inversion H; subst. left. eauto. }
    destruct (nonempty (outfile a) && _).
    { inversion H; subst. left. eauto. }
    destruct (subsample _ _ _ _) as [[x y]| |]; [|discriminate|discriminate].
    right. exists x, y. cbv zeta.
    destruct (ok _) eqn:Hok.
    + destruct (DumpSpline _ _ _ _ _ _ _ _ _) as [tr_dump| |] eqn:Hd;
        [|discriminate|discriminate].
      inversion H; subst. split; [reflexivity|]. right. eauto.
    + inversion H; subst. split; [reflexivity|]. left. eauto.
Qed.

(** An exit of the parser writes no library call. *)
Lemma option_loop_exit_no_call ys :
  forall a0 e0 code tr,
    option_loop atoi atof Version ys a0 e0 = LoopExit code tr ->
    List.filter is_construct tr = [] /\ List.filter is_evaluation tr = [].
Proof.
  induction ys as [|[c0 arg] ys IH]; intros a0 e0 code tr; simpl; [discriminate|].
  destruct (c0 =? "000")%char; [discriminate|].
  destruct (option_switch atoi atof Version c0 arg a0 e0) eqn:Hs; [|apply IH].
  intros H; inversion H; subst.
  apply option_switch_exit in Hs as [_ [[_ ->]|[_ ->]]]; auto.
Qed.

Lemma parse_exit_no_call ys infile outfile code tr :
  parseCommandLine' ys infile outfile = Exits code tr ->
  List.filter is_construct tr = [] /\ List.filter is_evaluation tr = [].
Proof.
  unfold parseCommandLine.
  destruct (option_loop _ _ _ _ _ _) as [c t|a1 e1] eqn:Hl.
  - intros H; inversion H; subst. eapply option_loop_exit_no_call, Hl.
  - destruct (_ =? 0); intros H; inversion H; auto.
Qed.

(** The constructor calls in the trace of a run. *)
Lemma main_constructs fuel ys env code tr x y wl b n :
  main' fuel ys env = Finished (code, tr) ->
  In (CallConstruct x y wl b n) tr ->
  exists a,
    parseCommandLine' ys "" "" = Proceeds a /\
    wl = wavelength a /\ b = bc a /\ n = num_nodes a /\
    (ok (construct x y wl b n) = false ->
     code = 0 /\ tr = report_args a ++ setup_spline a x y ++ setup_failed).
Proof.
  intros Hm Hin.
  assert (In (CallConstruct x y wl b n) (List.filter is_construct tr)) as Hf
    by (apply List.filter_In; auto).
  apply main_shapes in Hm.
  destruct Hm as [Hp|(a & Hp & [(name & -> & ->)|(x' & y' & Hcode & Hm)])].
  - apply parse_exit_no_call in Hp as [Hp _]. rewrite Hp in Hf. destruct Hf.
  - exfalso. rewrite List.filter_app in Hf.
    rewrite (proj1 (report_args_no_call a)) in Hf. simpl in Hf. exact Hf.
  - cbv zeta in Hm.
    destruct Hm as [(Hok & ->)|(Hok & out & tr_dump & Hd & ->)];
      rewrite !List.filter_app in Hf;
      rewrite (proj1 (report_args_no_call a)),
        (proj1 (setup_spline_calls a x' y')) in Hf.
    + simpl in Hf. destruct Hf as [Hf|[]]. inversion Hf; subst.
      exists a. split; [exact Hp|]. do 3 (split; [reflexivity|]).
      intros _. split; reflexivity.
    + rewrite (DumpSpline_no_construct _ _ _ _ _ _ _ Hd) in Hf.
      simpl in Hf. destruct Hf as [Hf|[]]. inversion Hf; subst.
      exists a. split; [exact Hp|]. do 3 (split; [reflexivity|]).
      intros Hno. rewrite Hno in Hok. discriminate.
Qed.

End MainTrace.

(** ** Status of the library, from the spec's model *)

Lemma ok_iff (f : Core.CurveFit) :
  Core.ok f = true <->
  Core.isValid (Core.engine f) = true /\
  Core.succeeded (Core.solve_status f) = true.
Proof. unfold Core.ok. apply andb_true_iff. Qed.

Lemma invalid_engine_fails_fit b y solved :
  Core.isValid b = false -> Core.ok (Core.make_fit b y solved) = false.
Proof. intros H. unfold Core.ok. simpl. rewrite H. reflexivity. Qed.

Lemma nonpositive_wavelength_invalid min_points min_nodes factorized x b wl :
  (wl <=? 0)%float = true ->
  Core.isValid
    (Core.make_engine min_points min_nodes factorized x (Core.ByWavelength wl) b)
  = false.
Proof.
  intros H. unfold Core.isValid, Core.make_engine, Core.setup. simpl.
  rewrite H. reflexivity.
Qed.

Lemma small_node_count_invalid min_points min_nodes factorized x b nodes :
  nodes < min_nodes ->
  Core.isValid
    (Core.make_engine min_points min_nodes factorized x (Core.ByNodeCount nodes) b)
  = false.
Proof.
  intros H. unfold Core.isValid, Core.make_engine, Core.setup. simpl.
  destruct (Z.ltb_spec nodes min_nodes); [reflexivity|lia].
Qed.

(** ** The wavelength requirement *)

Section Wavelength.

Variable atoi : string -> Z.
Variable atof : string -> datum.
Variable SplineT : Type.
Variable Version : string.
Variable construct :
  list datum -> list datum -> datum -> BoundaryCondition -> Z -> SplineT.
Variable ok : SplineT -> bool.
Variable evaluate : SplineT -> datum -> datum.
Variable slope : SplineT -> datum -> datum.

Local Abbreviation parseCommandLine' := (parseCommandLine atoi atof Version).
Local Abbreviation option_loop' := (option_loop atoi atof Version).
Local Abbreviation main' :=
  (main atoi atof SplineT Version construct ok evaluate slope).

(** A loop that falls out without a [-w] argument leaves the wavelength
    at its initial -1.0, which is negative. *)
Lemma unset_wavelength_negative ys infile outfile a err :
  option_loop' ys (initial_args infile outfile) 0 = LoopDone a err ->
  given "w" ys = false ->
  (wavelength a <? 0)%float = true.
Proof.
  intros Hloop Hw.
  apply option_loop_keeps in Hloop as (Hkeep & _).
  rewrite (Hkeep Hw). reflexivity.
Qed.

Lemma runs_through_done ys a err :
  runs_through ys = true ->
  exists a' err', option_loop' ys a err = LoopDone a' err'.
Proof.
  intros Hys.
  destruct (option_loop_through atoi atof Version ys Hys a err)
    as (a' & err' & Hrest & _).
  exists a', err'. rewrite <- (app_nil_r ys). apply Hrest.
Qed.

Lemma unset_wavelength_exits ys infile outfile :
  Z.of_nat (length ys) < 2 ^ 32 - 1 ->
  given "w" ys = false ->
  (forall a, parseCommandLine' ys infile outfile <> Proceeds a) /\
  (runs_through ys = true ->
   parseCommandLine' ys infile outfile = Exits 1 [Usage Cerr]).
Proof.
  intros Hlen Hw. split.
  - intros a Hp.
    pose proof (parse_proceeds_wavelength _ _ _ _ _ _ _ Hlen Hp) as Hpos.
    apply parse_proceeds in Hp as [err Hloop].
    rewrite (unset_wavelength_negative _ _ _ _ _ Hloop Hw) in Hpos. discriminate.
  - intros Hys.
    destruct (runs_through_done ys (initial_args infile outfile) 0 Hys)
      as (a & err & Hloop).
    eapply parse_negative_wavelength; eauto.
    eapply unset_wavelength_negative; eauto.
Qed.

End Wavelength.

(** C1, as the code has it: in the model of the spec every Basis Engine
    built with a wavelength that is zero or negative, or with a node
    count below the minimum, is invalid, and so is every Curve Fit built
    from it; in the harness a wavelength that is unset or negative when
    the option loop falls out makes [parseCommandLine] leave through
    [exit(1)] after the usage message, so that [main] constructs nothing,
    and whenever [parseCommandLine] returns the wavelength is not
    negative.  The command line holds fewer than 2^32 - 1 options. *)
Theorem negative_wavelength_is_caught
    (atoi : string -> Z) (atof : string -> datum) (SplineT : Type)
    (Version : string)
    (construct : list datum -> list datum -> datum -> BoundaryCondition -> Z -> SplineT)
    (ok : SplineT -> bool) (evaluate slope : SplineT -> datum -> datum)
    (fuel : nat) (ys : list optyield) (env : Env) :
  Z.of_nat (length ys) < 2 ^ 32 - 1 ->
  (forall min_points min_nodes factorized x b wl y solved,
      (wl <=? 0)%float = true ->
      let engine := Core.make_engine min_points min_nodes factorized x
                      (Core.ByWavelength wl) b in
      Core.isValid engine = false /\
      Core.ok (Core.make_fit engine y solved) = false) /\
  (forall min_points min_nodes factorized x b nodes y solved,
      nodes < min_nodes ->
      let engine := Core.make_engine min_points min_nodes factorized x
                      (Core.ByNodeCount nodes) b in
      Core.isValid engine = false /\
      Core.ok (Core.make_fit engine y solved) = false) /\
  (forall a err,
      option_loop atoi atof Version ys (initial_args "" "") 0 = LoopDone a err ->
      given "w" ys = false \/ (wavelength a <? 0)%float = true ->
      parseCommandLine atoi atof Version ys "" "" = Exits 1 [Usage Cerr] /\
      main atoi atof SplineT Version construct ok evaluate slope fuel ys env
      = Finished (1, [Usage Cerr])) /\
  (forall a,
      parseCommandLine atoi atof Version ys "" "" = Proceeds a ->
      (wavelength a <? 0)%float = false).
Proof.
  intros Hlen. split; [|split; [|split]].
  - intros min_points min_nodes factorized x b wl y solved Hwl engine.
    pose proof (nonpositive_wavelength_invalid min_points min_nodes factorized
                  x b wl Hwl) as Hinv.
    split; [exact Hinv|]. apply invalid_engine_fails_fit, Hinv.
  - intros min_points min_nodes factorized x b nodes y solved Hn engine.
    pose proof (small_node_count_invalid min_points min_nodes factorized
                  x b nodes Hn) as Hinv.
    split; [exact Hinv|]. apply invalid_engine_fails_fit, Hinv.
  - intros a err Hloop Hneg.
    assert ((wavelength a <? 0)%float = true) as Hlt.
    { destruct Hneg as [Hw|Hlt]; [|exact Hlt].
      eapply unset_wavelength_negative; eauto. }
    pose proof (parse_negative_wavelength atoi atof Version ys "" "" a err
                  Hlen Hloop Hlt) as Hp.
    split; [exact Hp|]. apply main_exits, Hp.
  - intros a Hp. eapply parse_proceeds_wavelength; eauto.
Qed.

Lemma negative_wavelength_witness :
  Example.parse [("w"%char, Some "-3"%string); ("n"%char, Some "12"%string)] "" ""
  = Exits 1 [Usage Cerr] /\
  Example.run_main 8 [("w"%char, Some "-3"%string); ("n"%char, Some "12"%string)]
    (Example.env (Example.line 5))
  = Finished (1, [Usage Cerr]).
Proof.
  refine (proj1 (proj2 (proj2 (negative_wavelength_is_caught
      Example.atoi Example.atof Core.CurveFit (BSPLINE_VERSION None)
      Example.construct Core.ok Example.evaluate Example.slope 8%nat
      [("w"%char, Some "-3"%string); ("n"%char, Some "12"%string)]
      (Example.env (Example.line 5)) _)))
      {| infile := ""; outfile := ""; step := 0; wavelength := (-3)%float;
         bc := BC_ZERO_SECOND; num_nodes := 12; debug := false |}
      0 _ (or_intror _)).
  - vm_compute. reflexivity.
  - vm_compute. reflexivity.
  - vm_compute. reflexivity.
Defined.

(** C1 as stated fails for the wavelength zero: it is a configuration
    error for the Basis Engine, yet [parseCommandLine] returns with it
    and [main] hands it to the constructor. *)
Lemma zero_wavelength_reaches_constructor :
  (0 <=? 0)%float = true /\
  Example.parse [("w"%char, Some "0"%string)] "" ""
  = Proceeds {| infile := ""; outfile := ""; step := 0; wavelength := 0%float;
                bc := BC_ZERO_SECOND; num_nodes := 0; debug := false |} /\
  Example.run_main 8 [("w"%char, Some "0"%string)] (Example.env (Example.line 5))
  = Finished (0, [CallConstruct [0; 1; 2; 3; 4]%float [0; 1; 2; 3; 4]%float
                    0%float BC_ZERO_SECOND 0;
                  Out Cerr 0 (Str "Spline setup failed."); Endl Cerr]).
Proof.
  repeat split; vm_compute; reflexivity.
Qed.

(** ** The subsampling loop *)

Lemma sampled_start s (l : list datum) : sampled s 0 l l.
Proof. repeat split; intros; auto; lia. Qed.

Lemma sampled_read s k (l0 l : list datum) :
  (1 <= s)%nat -> sampled s k l0 l -> l !! (k * s)%nat = l0 !! (k * s)%nat.
Proof. intros Hs (_ & _ & Hrest). apply Hrest. nia. Qed.

Lemma sampled_step s k (l0 l : list datum) v :
  (1 <= s)%nat -> sampled s k l0 l -> l0 !! (k * s)%nat = Some v ->
  sampled s (S k) l0 (<[k := v]> l).
Proof.
  intros Hs (Hlen & Hdone & Hrest) Hv.
  assert (k < length l)%nat as Hk.
  { apply lookup_lt_Some in Hv. rewrite Hlen. nia. }
  split; [|split].
  - rewrite length_insert. exact Hlen.
  - intros j Hj. destruct (Nat.eq_dec j k) as [->|Hne].
    + rewrite list_lookup_insert_eq by exact Hk. symmetry. exact Hv.
    + rewrite list_lookup_insert_ne by auto. apply Hdone. lia.
  - intros j Hj. rewrite list_lookup_insert_ne by lia. apply Hrest. lia.
Qed.

(** The loop, started after [k] rounds, ends after [m] rounds, [m] being
    the first count whose offset [m * s] is not below the length. *)
Lemma subsample_loop_spec step (x0 y0 : list datum) :
  let s := Z.to_nat step in
  (1 <= s)%nat ->
  length x0 = length y0 ->
  forall fuel k x y,
    sampled s k x0 x -> sampled s k y0 y ->
    (length x0 - k * s < fuel)%nat ->
    (k = 0 \/ (k - 1) * s < length x0)%nat ->
    exists x' y' m,
      subsample_loop fuel step x y k k (k * s) (k * s) = Finished (x', y', m, m) /\
      sampled s m x0 x' /\ sampled s m y0 y' /\
      (length x0 <= m * s)%nat /\
      (m = 0 \/ (m - 1) * s < length x0)%nat.
Proof.
  intros s Hs Hlen.
  induction fuel as [|fuel IH]; intros k x y Hx Hy Hfuel Hk; [lia|].
  simpl.
  pose proof Hx as (Hlx & _). pose proof Hy as (Hly & _).
  rewrite Hlx, Hly, <- Hlen.
  destruct (Nat.ltb_spec (k * s) (length x0)) as [Hlt|Hge]; simpl.
  - destruct (lookup_lt_is_Some_2 x0 (k * s)%nat Hlt) as [vx Hvx].
    destruct (lookup_lt_is_Some_2 y0 (k * s)%nat) as [vy Hvy]; [lia|].
    rewrite (sampled_read s k x0 x Hs Hx), Hvx.
    rewrite (sampled_read s k y0 y Hs Hy), Hvy.
    destruct (Nat.ltb_spec k (length x0)) as [Hk'|Hk']; [|nia]. simpl.
    fold s. replace (k * s + s)%nat with (S k * s)%nat by lia.
    apply IH.
    + apply sampled_step; auto.
    + apply sampled_step; auto.
    + lia.
    + right. simpl. rewrite Nat.sub_0_r. exact Hlt.
  - exists x, y, k. split; [reflexivity|]. auto.
Qed.

(** The number of rounds is the ceiling of the length over the step. *)
Lemma rounds_ceiling (n m : nat) (step : Z) :
  0 < step ->
  (n <= m * Z.to_nat step)%nat ->
  (m = 0 \/ (m - 1) * Z.to_nat step < n)%nat ->
  m = Z.to_nat ((Z.of_nat n + step - 1) / step).
Proof.
  intros Hstep Hup Hlow.
  assert (Z.of_nat m = (Z.of_nat n + step - 1) / step) as Hm; [|lia].
  apply Z.div_unique with (r := Z.of_nat n + step - 1 - step * Z.of_nat m); [|lia].
  left.
  assert (Z.of_nat (m * Z.to_nat step) = Z.of_nat m * step) as E1
    by (rewrite Nat2Z.inj_mul, Z2Nat.id; lia).
  destruct Hlow as [->|Hlow].
  - simpl in Hup. lia.
  - assert (Z.of_nat ((m - 1) * Z.to_nat step) = (Z.of_nat m - 1) * step) as E2.
    { destruct m as [|m]; [simpl in Hlow; lia|].
      rewrite Nat2Z.inj_mul, Z2Nat.id by lia. f_equal. lia. }
    nia.
Qed.

(** C8: on vectors of equal length, with enough fuel for one round per
    element, the subsampling ends; for a step greater than 1 both vectors
    are resized to the ceiling of the length over the step and hold, in
    order, the original elements at the indices 0, step, 2*step, ...; for
    a step of at most 1 both vectors are unchanged. *)
Theorem subsample_keeps_every_step
    (fuel : nat) (step : Z) (x y : list datum) :
  length x = length y ->
  (length x < fuel)%nat ->
  (1 < step ->
   exists x' y',
     subsample fuel step x y = Finished (x', y') /\
     length x' = Z.to_nat ((Z.of_nat (length x) + step - 1) / step) /\
     length y' = Z.to_nat ((Z.of_nat (length x) + step - 1) / step) /\
     forall j, (j < length x')%nat ->
       x' !! j = x !! (j * Z.to_nat step)%nat /\
       y' !! j = y !! (j * Z.to_nat step)%nat) /\
  (step <= 1 -> subsample fuel step x y = Finished (x, y)).
Proof.
  intros Hlen Hfuel. split.
  - intros Hstep. unfold subsample.
    destruct (Z.ltb_spec 1 step) as [_|]; [|lia].
    destruct (subsample_loop_spec step x y ltac:(lia) Hlen fuel 0%nat x y
                (sampled_start _ x) (sampled_start _ y) ltac:(lia) ltac:(lia))
      as (x' & y' & m & Hloop & Hx & Hy & Hup & Hlow).
    simpl in Hloop. rewrite Hloop.
    pose proof (rounds_ceiling _ _ step ltac:(lia) Hup Hlow) as Hm.
    destruct Hx as (Hlx & Hx1 & _). destruct Hy as (Hly & Hy1 & _).
    assert (m <= length x)%nat as Hmn.
    { destruct Hlow as [->|Hlow]; [lia|]. destruct m; [lia|].
      simpl in Hlow. rewrite Nat.sub_0_r in Hlow. nia. }
    exists (resize m 0%float x'), (resize m 0%float y').
    rewrite !length_resize.
    repeat split; auto.
    + rewrite lookup_resize by lia. apply Hx1. lia.
    + rewrite lookup_resize by lia. apply Hy1. lia.
  - intros Hstep. unfold subsample.
    destruct (Z.ltb_spec 1 step); [lia|reflexivity].
Qed.

Lemma subsample_witness :
  subsample 8 3 [1; 2; 3; 4; 5; 6; 7]%float [10; 20; 30; 40; 50; 60; 70]%float
  = Finished ([1; 4; 7]%float, [10; 40; 70]%float) /\
  subsample 8 1 [1; 2; 3]%float [10; 20; 30]%float
  = Finished ([1; 2; 3]%float, [10; 20; 30]%float).
Proof.
  split.
  - destruct (proj1 (subsample_keeps_every_step 8 3
                       [1; 2; 3; 4; 5; 6; 7]%float [10; 20; 30; 40; 50; 60; 70]%float
                       eq_refl ltac:(simpl; lia)) ltac:(lia))
      as (x' & y' & Hs & _).
    vm_compute. reflexivity.
  - exact (proj2 (subsample_keeps_every_step 8 1 [1; 2; 3]%float [10; 20; 30]%float
                    eq_refl ltac:(simpl; lia)) ltac:(lia)).
Defined.

(** ** The reading loop *)

(** A finite [double] minus itself is +0. *)
Lemma datum_sub_diag (f : datum) :
  datum_finite f = true -> (f - f)%float = 0%float.
Proof.
  unfold datum_finite. intros Hf.
  apply Prim2SF_inj. rewrite sub_spec.
  destruct (Prim2SF f) as [sg|sg| |sg m e] eqn:E; try discriminate.
  - destruct sg; reflexivity.
  - unfold SF64sub, SFsub.
    rewrite Z.min_id. unfold shl_align. rewrite Z.sub_diag. cbn [fst].
    replace (cond_Zopp sg (Z.pos m) - cond_Zopp sg (Z.pos m)) with 0 by lia.
    reflexivity.
Qed.

Lemma wrap_int_succ k : wrap_int (wrap_int k + 1) = wrap_int (k + 1).
Proof.
  unfold wrap_int, UINT_WIDTH.
  replace (2 ^ (32 - 1)) with 2147483648 by reflexivity.
  replace (2 ^ 32) with 4294967296 by reflexivity.
  replace ((k + 2147483648) mod 4294967296 - 2147483648 + 1 + 2147483648)
    with ((k + 2147483648) mod 4294967296 + 1) by lia.
  rewrite Zplus_mod_idemp_l. f_equal. f_equal. lia.
Qed.

(** The counter comes back to 1 only after 2^32 further values. *)
Lemma wrap_int_not_first k :
  1 <= k < 2 ^ 32 -> (wrap_int (k + 1) =? 1) = false.
Proof.
  intros Hk. apply Z.eqb_neq. unfold wrap_int, UINT_WIDTH.
  replace (2 ^ (32 - 1)) with 2147483648 by reflexivity.
  replace (2 ^ 32) with 4294967296 in * by reflexivity.
  intros H.
  destruct (Z_lt_le_dec (k + 1 + 2147483648) 4294967296) as [Hlt|Hge].
  - rewrite Z.mod_small in H by lia. lia.
  - replace (k + 1 + 2147483648) with (k + 1 + 2147483648 - 4294967296 + 1 * 4294967296)
      in H by lia.
    rewrite Z_mod_plus_full, Z.mod_small in H by lia. lia.
Qed.

(** The vectors grow together, whatever the input: the ordinates are
    those of the complete pairs, and an abscissa is appended with each. *)
Lemma read_data_sizes (s : instream) :
  forall n, (length s <= n)%nat ->
  forall i base x y,
    length x = length y ->
    length (rd_x (read_data s i base x y)) = length (rd_y (read_data s i base x y)) /\
    rd_y (read_data s i base x y) = y ++ map snd (pairs s) /\
    exists t, rd_x (read_data s i base x y) = x ++ t.
Proof.
  intros n. revert s.
  induction n as [|n IH]; intros s Hn i base x y Hxy.
  - destruct s; [|simpl in Hn; lia]. simpl. rewrite app_nil_r.
    split; [exact Hxy|]. split; [reflexivity|].
    exists []. now rewrite app_nil_r.
  - destruct s as [|[f|] [|[g|] rest]]; simpl;
      try (rewrite app_nil_r; split; [exact Hxy|]; split; [reflexivity|];
           exists []; now rewrite app_nil_r).
    simpl in Hn.
    set (base' := if wrap_int (i + 1) =? 1 then f else base).
    destruct (IH rest ltac:(lia) (wrap_int (i + 1)) base'
                (x ++ [(f - base')%float]) (y ++ [g])) as (Hl & Hy & t & Ht).
    { rewrite !length_app. simpl. lia. }
    split; [exact Hl|]. split.
    + rewrite Hy, <- app_assoc. reflexivity.
    + rewrite Ht, <- app_assoc. eauto.
Qed.

(** After the first value and before the counter is back at 1, the loop
    stores the pairs of the input against the same base. *)
Lemma read_data_pairs (s : instream) :
  forall n, (length s <= n)%nat ->
  forall k base x y,
    1 <= k -> k + Z.of_nat (length (pairs s)) <= 2 ^ 32 ->
    rd_x (read_data s (wrap_int k) base x y)
    = x ++ map (fun p => (fst p - base)%float) (pairs s) /\
    rd_y (read_data s (wrap_int k) base x y) = y ++ map snd (pairs s).
Proof.
  intros n. revert s.
  induction n as [|n IH]; intros s Hn k base x y Hk Hlen.
  - destruct s; [|simpl in Hn; lia]. simpl. now rewrite !app_nil_r.
  - destruct s as [|[f|] [|[g|] rest]]; simpl; try now rewrite !app_nil_r.
    simpl in Hn, Hlen.
    rewrite wrap_int_succ, wrap_int_not_first by lia.
    destruct (IH rest ltac:(lia) (k + 1) base (x ++ [(f - base)%float]) (y ++ [g])
                ltac:(lia) ltac:(lia)) as [Hx Hy].
    rewrite Hx, Hy, <- !app_assoc. split; reflexivity.
Qed.

Lemma read_data_repeat_pair (n : nat) f g rest :
  forall k base x y,
    1 <= k -> k + Z.of_nat n <= 2 ^ 32 ->
    read_data (repeat_pair n f g rest) (wrap_int k) base x y
    = read_data rest (wrap_int (k + Z.of_nat n)) base
        (x ++ replicate n (f - base)%float) (y ++ replicate n g).
Proof.
  induction n as [|n IH]; intros k base x y Hk Hlen.
  - cbn [repeat_pair replicate Z.of_nat]. now rewrite Z.add_0_r, !app_nil_r.
  - cbn [repeat_pair replicate read_data].
    rewrite wrap_int_succ, wrap_int_not_first by lia.
    rewrite IH by lia.
    rewrite <- !app_assoc. cbn [app].
    do 2 f_equal. lia.
Qed.

Lemma length_pairs_repeat (n : nat) f g rest :
  length (pairs (repeat_pair n f g rest)) = (n + length (pairs rest))%nat.
Proof.
  induction n as [|n IH]; [reflexivity|].
  cbn [repeat_pair pairs length]. now rewrite IH.
Qed.


Lemma int_max_value : INT_MAX = 2147483647.
Proof. reflexivity. Qed.

(** X15: for every input the two vectors end with the same size, the
    ordinates being those of the complete pairs (a trailing value without
    partner is dropped); when the input starts with a pair whose first
    value is finite, the first stored abscissa is exactly 0; and for an
    input of fewer than [INT_MAX] pairs, on which the counter [i] stays
    within [int], every stored abscissa is the value read minus the first
    value read. *)
Theorem reading_stores_pairs (s : instream) :
  let r := read_data s 0 0%float [] [] in
  length (rd_x r) = length (rd_y r) /\
  rd_y r = map snd (pairs s) /\
  (forall v, rd_x r !! 0%nat = Some v ->
             datum_finite (first_value s) = true -> v = 0%float) /\
  (forall f g rest, s = Num f :: Num g :: rest ->
                    datum_finite f = true -> rd_x r !! 0%nat = Some 0%float) /\
  (Z.of_nat (length (pairs s)) < INT_MAX ->
   rd_x r = map (fun p => (fst p - first_value s)%float) (pairs s)).
Proof.
  cbv zeta. rewrite int_max_value.
  destruct (read_data_sizes s (length s) (le_n _) 0 0%float [] [] eq_refl)
    as (Hsize & Hy & _).
  split; [exact Hsize|]. split; [exact Hy|].
  destruct s as [|[f|] [|[g|] rest]];
    try (repeat split; simpl; try discriminate; reflexivity).
  cbn [read_data first_value pairs].
  change (wrap_int (0 + 1) =? 1) with true. cbv iota.
  change (wrap_int (0 + 1)) with (wrap_int 1).
  destruct (read_data_sizes rest (length rest) (le_n _) (wrap_int 1) f
              ([] ++ [(f - f)%float]) ([] ++ [g]) eq_refl) as (_ & _ & t & Ht).
  split; [|split].
  - intros v Hv Hf. rewrite Ht in Hv. simpl in Hv.
    inversion Hv; subst. apply datum_sub_diag, Hf.
  - intros f' g' rest' E Hf. inversion E; subst.
    rewrite Ht. simpl. f_equal. apply datum_sub_diag, Hf.
  - intros Hlen. cbn [length] in Hlen.
    destruct (read_data_pairs rest (length rest) (le_n _) 1 f
                ([] ++ [(f - f)%float]) ([] ++ [g]) ltac:(lia) ltac:(lia))
      as [Hx _].
    rewrite Hx. reflexivity.
Qed.

Lemma reading_witness :
  rd_x (read_data [Num 10; Num 7; Num 12.5; Num 8; Num 11] 0 0 [] [])
  = [0; 2.5]%float /\
  rd_y (read_data [Num 10; Num 7; Num 12.5; Num 8; Num 11] 0 0 [] [])
  = [7; 8]%float.
Proof.
  destruct (reading_stores_pairs [Num 10; Num 7; Num 12.5; Num 8; Num 11]%float)
    as (_ & Hy & _ & _ & Hx).
  split.
  - rewrite Hx by (vm_compute; reflexivity). vm_compute. reflexivity.
  - rewrite Hy. reflexivity.
Defined.


(** With the wrap-around of the machine model the counter [i] is back at
    1 when the pair after the first 2^32 is read, and the base is taken
    anew. *)
Lemma rebase_after (n : nat) :
  Z.of_nat n = 2 ^ 32 - 1 ->
  rd_x (read_data (repeat_pair (S n) 1 0 [Num 5; Num 0]) 0 0 [] []) !! S n
  = Some 0%float.
Proof.
  intros Hn.
  cbn [repeat_pair read_data].
  change (wrap_int (0 + 1) =? 1) with true. cbv iota.
  change (wrap_int (0 + 1)) with (wrap_int 1).
  rewrite read_data_repeat_pair by lia.
  replace (1 + Z.of_nat n) with (2 ^ 32) by lia.
  change (wrap_int (2 ^ 32)) with 0.
  cbn [read_data].
  change (wrap_int (0 + 1) =? 1) with true. cbv iota.
  cbn [rd_x].
  change (5 - 5)%float with 0%float.
  apply list_lookup_middle.
  rewrite length_app, length_replicate. reflexivity.
Qed.

(** On an input of 2^32 + 1 pairs, under that wrap-around: the last pair
    has the abscissa 5 and the first value read is 1, so the value minus
    the first value is 4, and the abscissa stored for it is 0. *)
Lemma late_abscissa_is_rebased :
  let s := repeat_pair (S (Z.to_nat (2 ^ 32 - 1))) 1 0 [Num 5; Num 0] in
  Z.of_nat (length (pairs s)) = 2 ^ 32 + 1 /\
  rd_x (read_data s 0 0 [] []) !! S (Z.to_nat (2 ^ 32 - 1)) = Some 0%float /\
  (5 - first_value s)%float = 4%float.
Proof.
  cbv zeta. split; [|split; [|reflexivity]].
  - rewrite length_pairs_repeat. cbn [pairs length].
    rewrite Nat2Z.inj_add, Nat2Z.inj_succ, Z2Nat.id by lia. reflexivity.
  - apply rebase_after. rewrite Z2Nat.id; lia.
Qed.

(** ** The table of [DumpSpline] *)

Section Table.

Variable SplineT : Type.
Variable evaluate : SplineT -> datum -> datum.
Variable slope : SplineT -> datum -> datum.

Local Abbreviation dump_loop' := (dump_loop SplineT evaluate slope).
Local Abbreviation DumpSpline' := (DumpSpline SplineT evaluate slope).
Local Abbreviation table_rows' := (table_rows SplineT evaluate slope).
Local Abbreviation squares' := (squares SplineT evaluate).

Lemma even_index k :
  0 <= k < 2 ^ 31 ->
  Z.to_nat (Z.shiftr (2 * k) 1) = Z.to_nat k /\
  Z.to_nat (wrap_uint (Z.shiftr (2 * k) 1 + (2 * k) mod 2)) = Z.to_nat k /\
  ((2 * k) mod 2 =? 0) = true.
Proof.
  intros Hk.
  assert (Z.shiftr (2 * k) 1 = k) as ->.
  { rewrite Z.shiftr_div_pow2 by lia. change (2 ^ 1) with 2.
    rewrite Z.mul_comm. apply Z.div_mul. lia. }
  assert ((2 * k) mod 2 = 0) as -> by (rewrite Z.mul_comm; apply Z_mod_mult).
  rewrite Z.add_0_r. unfold wrap_uint, UINT_WIDTH.
  rewrite Z.mod_small by lia. auto.
Qed.

(** With [i = 2k] and between 1 and 2^31 - 1 samples, the loop writes
    the rows of the samples from the [k]-th on, and ends. *)
Lemma dump_loop_rows (xv yv : list datum) spline out :
  length xv = length yv ->
  (1 <= length xv)%nat ->
  Z.of_nat (length xv) < 2 ^ 31 ->
  forall fuel k variance,
    (k <= length xv)%nat ->
    (length xv - k < fuel)%nat ->
    dump_loop' fuel xv yv spline out (2 * Z.of_nat k) variance
    = Finished (squares' spline (drop k xv) (drop k yv) variance,
                concat (table_rows' spline out (drop k xv) (drop k yv))).
Proof.
  intros Hlen H1 Hn.
  assert (wrap_size (2 * Z.of_nat (length xv) - 1) = 2 * Z.of_nat (length xv) - 1)
    as Hbound by (unfold wrap_size, SIZE_WIDTH; apply Z.mod_small; lia).
  induction fuel as [|fuel IH]; intros k variance Hk Hfuel; [lia|].
  cbn [dump_loop]. rewrite Hbound.
  destruct (Z.ltb_spec (2 * Z.of_nat k) (2 * Z.of_nat (length xv) - 1)) as [Hlt|Hge].
  - destruct (even_index (Z.of_nat k) ltac:(lia)) as (-> & -> & ->).
    rewrite Nat2Z.id.
    destruct (lookup_lt_is_Some_2 xv k ltac:(lia)) as [x Hx].
    destruct (lookup_lt_is_Some_2 yv k ltac:(lia)) as [y Hy].
    rewrite Hx, Hy.
    replace (wrap_uint (2 * Z.of_nat k + (2 - Z.b2z evalmid)))
      with (2 * Z.of_nat (S k)).
    2:{ unfold wrap_uint, UINT_WIDTH, evalmid. simpl Z.b2z.
        rewrite Z.mod_small; lia. }
    rewrite IH by lia.
    rewrite (drop_S xv x k Hx), (drop_S yv y k Hy). reflexivity.
  - rewrite !drop_ge by lia. reflexivity.
Qed.

(** From [2^31] samples on, the bound is beyond every value of [i], and
    [i] wraps around: the loop does not end. *)
Lemma dump_loop_runs_on (xv yv : list datum) spline out :
  length xv = length yv ->
  2 ^ 31 <= Z.of_nat (length xv) < 2 ^ 63 ->
  forall fuel k variance,
    0 <= k < 2 ^ 31 ->
    dump_loop' fuel xv yv spline out (2 * k) variance = OutOfFuel.
Proof.
  intros Hlen Hn.
  assert (wrap_size (2 * Z.of_nat (length xv) - 1) = 2 * Z.of_nat (length xv) - 1)
    as Hbound by (unfold wrap_size, SIZE_WIDTH; apply Z.mod_small; lia).
  induction fuel as [|fuel IH]; intros k variance Hk; [reflexivity|].
  cbn [dump_loop]. rewrite Hbound.
  destruct (Z.ltb_spec (2 * k) (2 * Z.of_nat (length xv) - 1)) as [_|Hge]; [|lia].
  destruct (even_index k Hk) as (-> & -> & ->).
  destruct (lookup_lt_is_Some_2 xv (Z.to_nat k) ltac:(lia)) as [x ->].
  destruct (lookup_lt_is_Some_2 yv (Z.to_nat k) ltac:(lia)) as [y ->].
  assert (exists k', 0 <= k' < 2 ^ 31 /\
                     wrap_uint (2 * k + (2 - Z.b2z evalmid)) = 2 * k') as (k' & Hk' & ->).
  { unfold wrap_uint, UINT_WIDTH, evalmid. simpl Z.b2z.
    destruct (Z.eq_dec (k + 1) (2 ^ 31)) as [E|E].
    - exists 0. split; [lia|].
      replace (2 * k + (2 - 0)) with (2 ^ 32) by lia. reflexivity.
    - exists (k + 1). split; [lia|]. rewrite Z.mod_small; lia. }
  rewrite IH by exact Hk'. reflexivity.
Qed.

Lemma length_table_rows spline out (xv yv : list datum) :
  length xv = length yv -> length (table_rows' spline out xv yv) = length xv.
Proof.
  revert yv. induction xv as [|x xv IH]; intros [|y yv] H; simpl in *;
    try discriminate; auto.
Qed.

(** The table has a row per sample when there are between 1 and
    2^31 - 1 of them. *)
Lemma DumpSpline_table fuel (xv yv : list datum) spline out dbg :
  length xv = length yv ->
  (1 <= length xv)%nat ->
  Z.of_nat (length xv) < 2 ^ 31 ->
  (length xv < fuel)%nat ->
  DumpSpline' fuel xv yv spline out dbg
  = Finished (header out ++ concat (table_rows' spline out xv yv) ++
              variance_report dbg
                (squares' spline xv yv 0 / datum_of_size (Z.of_nat (length xv)))%float).
Proof.
  intros Hlen H1 Hn Hfuel. unfold DumpSpline.
  change 0 with (2 * Z.of_nat 0) at 1.
  rewrite (dump_loop_rows xv yv spline out Hlen H1 Hn fuel 0%nat) by lia.
  rewrite !drop_0. reflexivity.
Qed.

(** On an empty vector the bound wraps to 2^64 - 1, the body is entered
    and reads [xv[0]]. *)
Lemma DumpSpline_empty fuel (yv : list datum) spline out dbg :
  DumpSpline' (S fuel) [] yv spline out dbg = Undefined.
Proof. reflexivity. Qed.

Lemma DumpSpline_runs_on fuel (xv yv : list datum) spline out dbg :
  length xv = length yv ->
  2 ^ 31 <= Z.of_nat (length xv) < 2 ^ 63 ->
  DumpSpline' fuel xv yv spline out dbg = OutOfFuel.
Proof.
  intros Hlen Hn. unfold DumpSpline.
  change 0 with (2 * 0) at 1.
  rewrite (dump_loop_runs_on xv yv spline out Hlen Hn fuel 0) by lia.
  reflexivity.
Qed.

End Table.

(** The library calls of the table: [evaluate] and [slope] once per
    sample, at the abscissa computed from the sample alone. *)
Lemma table_evaluations (SplineT : Type) (evaluate slope : SplineT -> datum -> datum)
    spline out (xv yv : list datum) :
  length xv = length yv ->
  List.filter is_evaluation
    (concat (table_rows SplineT evaluate slope spline out xv yv))
  = flat_map (fun x => [CallEvaluate ((x + x) / 2)%float;
                        CallSlope ((x + x) / 2)%float]) xv.
Proof.
  revert yv. induction xv as [|x xv IH]; intros [|y yv] H; simpl in *;
    try discriminate; auto.
  do 2 f_equal. apply IH. lia.
Qed.

(** The abscissa of a row is computed as [(x1 + x2) / 2] with
    [x1 = x2]: for a finite sample whose double is beyond the range of
    [double] it is an infinity, not the sample. *)
Lemma midpoint_overflows :
  let x := 0x1.1ccf385ebc8ap+1023%float in
  datum_finite x = true /\ ((x + x) / 2)%float = infinity.
Proof. split; reflexivity. Qed.

(** X16: for vectors of equal length with at least one and fewer than
    2^31 samples, and fuel for one round per sample, [DumpSpline] ends
    without an access out of bounds, having written the header line and
    one row per sample, each row computed from its sample alone
    ([x1 = x2 = xv[k]], the abscissa being [(x1 + x2) / 2]), with
    [evaluate] and [slope] called once per sample; on an empty vector the
    loop bound wraps around and the body reads [xv[0]], which is
    undefined. *)
Theorem dump_writes_a_row_per_sample
    (SplineT : Type) (evaluate slope : SplineT -> datum -> datum)
    (fuel : nat) (xv yv : list datum) (spline : SplineT) (out : ostream)
    (debug : bool) :
  length xv = length yv ->
  (1 <= length xv)%nat ->
  Z.of_nat (length xv) < 2 ^ 31 ->
  (length xv < fuel)%nat ->
  let rows := table_rows SplineT evaluate slope spline out xv yv in
  DumpSpline SplineT evaluate slope fuel xv yv spline out debug
  = Finished (header out ++ concat rows ++
              variance_report debug
                (squares SplineT evaluate spline xv yv 0
                 / datum_of_size (Z.of_nat (length xv)))%float) /\
  length rows = length xv /\
  List.filter is_evaluation (concat rows)
  = flat_map (fun x => [CallEvaluate ((x + x) / 2)%float;
                        CallSlope ((x + x) / 2)%float]) xv /\
  (forall fuel' yv',
      DumpSpline SplineT evaluate slope (S fuel') [] yv' spline out debug = Undefined).
Proof.
  intros Hlen H1 Hn Hfuel rows. subst rows.
  split; [apply DumpSpline_table; assumption|].
  split; [apply length_table_rows; assumption|].
  split; [apply table_evaluations; assumption|].
  intros fuel' yv'. apply DumpSpline_empty.
Qed.

Lemma dump_witness :
  DumpSpline Core.CurveFit Example.evaluate Example.slope 3
    [0; 2]%float [1; 5]%float
    (Example.construct [0; 2]%float [1; 5]%float 1 BC_ZERO_SECOND 0) Cout false
  = Finished (header Cout ++
              [Out Cout 10 (Dbl 0); Out Cout 10 (Dbl 1); CallEvaluate 0;
               Out Cout 15 (Dbl 0); CallSlope 0; Out Cout 20 (Dbl 1); Endl Cout;
               Out Cout 10 (Dbl 2); Out Cout 10 (Dbl 5); CallEvaluate 2;
               Out Cout 15 (Dbl 2); CallSlope 2; Out Cout 20 (Dbl 1); Endl Cout]).
Proof.
  destruct (dump_writes_a_row_per_sample Core.CurveFit Example.evaluate Example.slope
              3 [0; 2]%float [1; 5]%float
              (Example.construct [0; 2]%float [1; 5]%float 1 BC_ZERO_SECOND 0)
              Cout false eq_refl ltac:(simpl; lia) ltac:(simpl; lia) ltac:(simpl; lia))
    as (Hd & _).
  rewrite Hd. vm_compute. reflexivity.
Defined.

(** C10: on equal-length vectors of 2^31 samples, which are not empty,
    [DumpSpline] does not end: the [unsigned int] index [i] wraps from
    2^32 - 2 to 0 below the [size_t] bound 2^32 - 1, and the loop writes
    rows without end, whatever the fuel, where one row per sample would
    be 2^31 rows. *)
Theorem dump_runs_on_at_2_31 :
  let xv := replicate (Z.to_nat (2 ^ 31)) 0%float in
  (1 <= length xv)%nat /\
  Z.of_nat (length xv) = 2 ^ 31 /\
  (forall fuel,
      DumpSpline Core.CurveFit Example.evaluate Example.slope fuel xv xv
        (Example.construct xv xv 1 BC_ZERO_SECOND 0) Cout false
      = OutOfFuel).
Proof.
  cbv zeta.
  assert (Z.of_nat (length (replicate (Z.to_nat (2 ^ 31)) 0%float)) = 2 ^ 31) as Hn
    by (rewrite length_replicate, Z2Nat.id; lia).
  split; [lia|]. split; [exact Hn|].
  intros fuel. apply DumpSpline_runs_on; [reflexivity|lia].
Qed.

(** * Further properties of the harness *)

(** ** The option table and the switch *)

Section OptionTable.

Variable atoi : string -> Z.
Variable atof : string -> datum.
Variable Version : string.

Local Abbreviation option_switch' := (option_switch atoi atof Version).
Local Abbreviation option_loop' := (option_loop atoi atof Version).
Local Abbreviation parseCommandLine' := (parseCommandLine atoi atof Version).

Lemma option_switch_table (c : ascii) (a : Args) (err : Z) :
  match optv_entry optv c with
  | None =>
      forall arg, option_switch' c arg a err = LoopDone a (wrap_uint (err + 1))
  | Some true =>
      option_switch' c None a err = LoopDone a (wrap_uint (err + 1)) /\
      forall arg, exists a', option_switch' c (Some arg) a err = LoopDone a' err
  | Some false =>
      forall arg,
        option_switch' c arg a err = option_switch' c None a err /\
        ((exists tr, option_switch' c arg a err = LoopExit 0 tr) \/
         exists a', option_switch' c arg a err = LoopDone a' err)
  end.
Proof.
  destruct c as [b0 b1 b2 b3 b4 b5 b6 b7].
  destruct b0, b1, b2, b3, b4, b5, b6, b7; cbn;
    first [ intros [arg|]; reflexivity
          | split; [reflexivity|intros arg; eexists; reflexivity]
          | intros arg; split; [reflexivity|];
            first [ left; eexists; reflexivity | right; eexists; reflexivity ] ].
Qed.

(** X1: the table [optv] and the switch agree.  A character without
    entry counts an error whatever its argument; an option declared with
    a value counts an error when its argument is missing and otherwise
    leaves the count as it is; a declared flag ignores its argument and
    counts no error (it exits with status 0 or goes on). *)
Theorem optv_agrees_with_switch (c : ascii) (a : Args) (err : Z) :
  match optv_entry optv c with
  | None =>
      forall arg, option_switch' c arg a err = LoopDone a (wrap_uint (err + 1))
  | Some true =>
      option_switch' c None a err = LoopDone a (wrap_uint (err + 1)) /\
      forall arg, exists a', option_switch' c (Some arg) a err = LoopDone a' err
  | Some false =>
      forall arg,
        option_switch' c arg a err = option_switch' c None a err /\
        ((exists tr, option_switch' c arg a err = LoopExit 0 tr) \/
         exists a', option_switch' c arg a err = LoopDone a' err)
  end.
Proof. exact (option_switch_table c a err). Qed.

(** The error count after a pass through the switch that goes on. *)
Lemma option_switch_count c arg a err a' err' :
  option_switch' c arg a err = LoopDone a' err' ->
  err' = if is_error (c, arg) then wrap_uint (err + 1) else err.
Proof.
  intros H. pose proof (option_switch_table c a err) as T.
  unfold is_error. cbn [fst snd].
  destruct (optv_entry optv c) as [[|]|].
  - destruct T as [Tnone Tsome]. destruct arg as [arg|]; cbn.
    + destruct (Tsome arg) as [a1 E]. rewrite E in H. now inversion H.
    + rewrite Tnone in H. now inversion H.
  - destruct (T arg) as [_ [[tr E]|[a1 E]]]; rewrite E in H; now inversion H.
  - rewrite T in H. now inversion H.
Qed.

Lemma existsb_filter {A} (f : A -> bool) (l : list A) :
  existsb f l = negb (length (List.filter f l) =? 0)%nat.
Proof.
  induction l as [|x l IH]; [reflexivity|]. simpl.
  destruct (f x); simpl; auto.
Qed.

(** The count when the loop falls out: one per erroneous result seen. *)
Lemma option_loop_counts ys :
  forall a err a' err',
    option_loop' ys a err = LoopDone a' err' ->
    0 <= err -> err + Z.of_nat (length ys) < 2 ^ 32 ->
    err' = err + Z.of_nat (length (List.filter is_error (seen ys))).
Proof.
  induction ys as [|[c arg] ys IH]; intros a err a' err' H Herr Hlen.
  - inversion H; subst. simpl. lia.
  - cbn [option_loop seen fst] in H |- *.
    cbn [length] in Hlen. rewrite Nat2Z.inj_succ in Hlen.
    destruct (c =? "000")%char.
    + inversion H; subst. simpl. lia.
    + destruct (option_switch' c arg a err) as [code tr|a1 err1] eqn:Hs;
        [discriminate|].
      apply option_switch_count in Hs.
      cbn [List.filter].
      destruct (is_error (c, arg)).
      * subst err1. unfold wrap_uint, UINT_WIDTH in H.
        rewrite Z.mod_small in H by lia.
        apply IH in H; [|lia|lia]. cbn [length]. lia.
      * subst err1. apply IH in H; lia.
Qed.

(** X2: once the loop has fallen out of a command line of fewer than
    2^32 - 1 options, [parseCommandLine] leaves through [exit(1)] after
    the usage message exactly when one of the results it saw is in
    error (an undeclared option, a missing argument) or the wavelength is
    negative, and returns the variables otherwise. *)
Theorem parse_decision (ys : list optyield) (infile outfile : string)
    (a : Args) (err : Z) :
  Z.of_nat (length ys) < 2 ^ 32 - 1 ->
  option_loop' ys (initial_args infile outfile) 0 = LoopDone a err ->
  parseCommandLine' ys infile outfile
  = if existsb is_error (seen ys) || (wavelength a <? 0)%float
    then Exits 1 [Usage Cerr]
    else Proceeds a.
Proof.
  intros Hlen Hloop. unfold parseCommandLine. rewrite Hloop.
  apply option_loop_counts in Hloop; [|lia|lia].
  rewrite existsb_filter. rewrite Z.add_0_l in Hloop. subst err.
  set (n := length (List.filter is_error (seen ys))).
  assert (n <= length ys)%nat as Hn.
  { subst n. clear. induction ys as [|[c arg] ys IH]; [simpl; lia|].
    cbn [seen fst]. destruct (c =? "000")%char; [simpl; lia|].
    cbn [List.filter]. destruct (is_error _); simpl in *; lia. }
  destruct (wavelength a <? 0)%float.
  - rewrite orb_true_r. unfold wrap_uint, UINT_WIDTH.
    rewrite Z.mod_small by lia.
    destruct (Z.eqb_spec (Z.of_nat n + 1) 0); [lia|reflexivity].
  - rewrite orb_false_r.
    destruct (Z.eqb_spec (Z.of_nat n) 0) as [E|E];
      destruct (Nat.eqb_spec n 0); try lia; reflexivity.
Qed.

End OptionTable.

Lemma parse_decision_witness :
  Example.parse [("d"%char, None); ("x"%char, None); ("w"%char, Some "5"%string)] "" ""
  = Exits 1 [Usage Cerr] /\
  Example.parse [("s"%char, None); ("w"%char, Some "5"%string)] "" ""
  = Exits 1 [Usage Cerr].
Proof.
  split.
  - exact (parse_decision Example.atoi Example.atof (BSPLINE_VERSION None)
             [("d"%char, None); ("x"%char, None); ("w"%char, Some "5"%string)]
             ""%string ""%string
             {| infile := ""; outfile := ""; step := 0; wavelength := 5%float;
                bc := BC_ZERO_SECOND; num_nodes := 0; debug := true |}
             1 eq_refl eq_refl).
  - exact (parse_decision Example.atoi Example.atof (BSPLINE_VERSION None)
             [("s"%char, None); ("w"%char, Some "5"%string)]
             ""%string ""%string
             {| infile := ""; outfile := ""; step := 0; wavelength := 5%float;
                bc := BC_ZERO_SECOND; num_nodes := 0; debug := false |}
             1 eq_refl eq_refl).
Defined.

(** ** The values [parseCommandLine] returns *)

Section ParsedValues.

Variable atoi : string -> Z.
Variable atof : string -> datum.
Variable Version : string.

Local Abbreviation option_switch' := (option_switch atoi atof Version).
Local Abbreviation option_loop' := (option_loop atoi atof Version).
Local Abbreviation parseCommandLine' := (parseCommandLine atoi atof Version).

Ltac by_option :=
  unfold option_switch;
  repeat match goal with
         | |- context [(?c =? ?k)%char] => destruct (c =? k)%char eqn:?
         end;
  try match goal with
      | |- context [match ?arg with Some _ => _ | None => _ end] => destruct arg
      end.

(** A pass through the switch leaves [step], [infile] and [outfile] to
    their own options, and [debug] is only ever raised. *)
Lemma option_switch_frame c arg a err a' err' :
  option_switch' c arg a err = LoopDone a' err' ->
  ((c =? "s")%char && has_arg arg = false -> step a' = step a) /\
  ((c =? "i")%char && has_arg arg = false -> infile a' = infile a) /\
  ((c =? "o")%char && has_arg arg = false -> outfile a' = outfile a) /\
  debug a' = debug a || (c =? "d")%char.
Proof.
  by_option; intros H; inversion H; subst; clear H; simpl;
    repeat split; auto; intros; try discriminate;
    try (now rewrite ?orb_false_r, ?orb_true_r);
    repeat match goal with
           | E : (_ =? _)%char = true |- _ => apply Ascii.eqb_eq in E
           end; congruence.
Qed.

Lemma option_loop_frame ys :
  forall a err a' err',
    option_loop' ys a err = LoopDone a' err' ->
    (given "s" ys = false -> step a' = step a) /\
    (given "i" ys = false -> infile a' = infile a) /\
    (given "o" ys = false -> outfile a' = outfile a) /\
    debug a' = debug a || existsb (fun y => (fst y =? "d")%char) (seen ys).
Proof.
  induction ys as [|[c arg] ys IH]; intros a err a' err' H.
  - inversion H; subst. simpl. now rewrite orb_false_r.
  - cbn [option_loop seen fst] in H |- *. unfold given. cbn [existsb fst snd].
    destruct (c =? "000")%char.
    + inversion H; subst. simpl. now rewrite orb_false_r.
    + destruct (option_switch' c arg a err) as [code tr|a1 err1] eqn:Hs;
        [discriminate|].
      apply option_switch_frame in Hs as (Hst & Hi & Ho & Hd).
      apply IH in H as (IHs & IHi & IHo & IHd).
      repeat split; try (intros Hg; apply orb_false_iff in Hg as [Hg1 Hg2]).
      * rewrite (IHs Hg2). auto.
      * rewrite (IHi Hg2). auto.
      * rewrite (IHo Hg2). auto.
      * rewrite IHd, Hd. cbn [existsb fst]. now rewrite orb_assoc.
Qed.

(** X3: of an option given several times the last value counts.  Behind
    a prefix that neither ends nor exits, and with no later argument for
    the same option, a returning [parseCommandLine] has [step], the
    wavelength and the node count converted from that argument by [atoi]
    or [atof], and the file names equal to it. *)
Theorem last_value_wins (pre post : list optyield) (arg infile0 outfile0 : string) :
  runs_through pre = true ->
  (given "s" post = false -> forall a,
     parseCommandLine' (pre ++ ("s"%char, Some arg) :: post) infile0 outfile0 = Proceeds a ->
     step a = atoi arg) /\
  (given "w" post = false -> forall a,
     parseCommandLine' (pre ++ ("w"%char, Some arg) :: post) infile0 outfile0 = Proceeds a ->
     wavelength a = atof arg) /\
  (given "n" post = false -> forall a,
     parseCommandLine' (pre ++ ("n"%char, Some arg) :: post) infile0 outfile0 = Proceeds a ->
     num_nodes a = atoi arg) /\
  (given "i" post = false -> forall a,
     parseCommandLine' (pre ++ ("i"%char, Some arg) :: post) infile0 outfile0 = Proceeds a ->
     infile a = arg) /\
  (given "o" post = false -> forall a,
     parseCommandLine' (pre ++ ("o"%char, Some arg) :: post) infile0 outfile0 = Proceeds a ->
     outfile a = arg).
Proof.
  intros Hpre.
  destruct (option_loop_through atoi atof Version pre Hpre
              (initial_args infile0 outfile0) 0) as (a1 & err1 & Hrest & _).
  repeat split; intros Hg a Hp;
    apply parse_proceeds in Hp as [err Hloop];
    rewrite Hrest in Hloop; simpl in Hloop.
  - apply option_loop_frame in Hloop as (H & _). now rewrite (H Hg).
  - apply option_loop_keeps in Hloop as (H & _). now rewrite (H Hg).
  - apply option_loop_keeps in Hloop as (_ & _ & H). now rewrite (H Hg).
  - apply option_loop_frame in Hloop as (_ & H & _). now rewrite (H Hg).
  - apply option_loop_frame in Hloop as (_ & _ & H & _). now rewrite (H Hg).
Qed.

(** X4: the variables of options that are not given keep their initial
    values when [parseCommandLine] returns ([step] is 0, the file names
    are the caller's), and [debug] is set exactly when a [-d] was seen. *)
Theorem parse_defaults (ys : list optyield) (infile0 outfile0 : string) (a : Args) :
  parseCommandLine' ys infile0 outfile0 = Proceeds a ->
  (given "s" ys = false -> step a = 0) /\
  (given "i" ys = false -> infile a = infile0) /\
  (given "o" ys = false -> outfile a = outfile0) /\
  debug a = existsb (fun y => (fst y =? "d")%char) (seen ys).
Proof.
  intros Hp. apply parse_proceeds in Hp as [err Hloop].
  apply option_loop_frame in Hloop as (Hs & Hi & Ho & Hd).
  repeat split; auto.
Qed.

(** Behind a prefix that neither ends nor exits, [-h] leaves. *)
Lemma parse_help pre arg post infile outfile :
  runs_through pre = true ->
  parseCommandLine' (pre ++ ("h"%char, arg) :: post) infile outfile
  = Exits 0 help_report.
Proof.
  intros Hpre. unfold parseCommandLine.
  destruct (option_loop_through atoi atof Version pre Hpre
              (initial_args infile outfile) 0) as (a' & err' & Hrest & _).
  rewrite Hrest. reflexivity.
Qed.

End ParsedValues.

Lemma last_value_witness :
  exists a,
    Example.parse [("s"%char, Some "3"%string); ("w"%char, Some "5"%string);
                   ("s"%char, Some "7"%string); ("d"%char, None)] "" "" = Proceeds a /\
    step a = 7.
Proof.
  eexists. split; [reflexivity|].
  exact (proj1 (last_value_wins Example.atoi Example.atof (BSPLINE_VERSION None)
                  [("s"%char, Some "3"%string); ("w"%char, Some "5"%string)]
                  [("d"%char, None)] "7"%string ""%string ""%string eq_refl)
           eq_refl _ eq_refl).
Defined.

Lemma parse_defaults_witness :
  exists a,
    Example.parse [("w"%char, Some "5"%string); ("d"%char, None)] "" "" = Proceeds a /\
    step a = 0 /\ infile a = ""%string /\ outfile a = ""%string /\ debug a = true.
Proof.
  eexists. split; [reflexivity|].
  destruct (parse_defaults Example.atoi Example.atof (BSPLINE_VERSION None)
              [("w"%char, Some "5"%string); ("d"%char, None)] ""%string ""%string
              _ eq_refl) as (Hs & Hi & Ho & Hd).
  split; [exact (Hs eq_refl)|]. split; [exact (Hi eq_refl)|].
  split; [exact (Ho eq_refl)|exact Hd].
Defined.

(** X5: an option [-h] that the loop reaches makes [parseCommandLine]
    write the usage of the options and the description [_usage] to
    [cout] and leave through [exit(0)]; [main] ends with status 0 and has
    read no data and constructed nothing. *)
Theorem help_option_reports_and_exits
    (atoi : string -> Z) (atof : string -> datum) (SplineT : Type)
    (Version : string)
    (construct : list datum -> list datum -> datum -> BoundaryCondition -> Z -> SplineT)
    (ok : SplineT -> bool) (evaluate slope : SplineT -> datum -> datum)
    (pre post : list optyield) (arg : option string) (fuel : nat) (env : Env) :
  runs_through pre = true ->
  parseCommandLine atoi atof Version (pre ++ ("h"%char, arg) :: post) "" ""
  = Exits 0 help_report /\
  main atoi atof SplineT Version construct ok evaluate slope fuel
    (pre ++ ("h"%char, arg) :: post) env
  = Finished (0, help_report) /\
  List.filter is_construct help_report = [].
Proof.
  intros Hpre.
  pose proof (parse_help atoi atof Version pre arg post "" "" Hpre) as Hp.
  split; [exact Hp|]. split; [|reflexivity].
  apply main_exits, Hp.
Qed.

Lemma help_option_witness :
  Example.run_main 0 [("w"%char, Some "5"%string); ("h"%char, None);
                      ("x"%char, None)] (Example.env [])
  = Finished (0, help_report).
Proof.
  exact (proj1 (proj2 (help_option_reports_and_exits
                         Example.atoi Example.atof Core.CurveFit (BSPLINE_VERSION None)
                         Example.construct Core.ok Example.evaluate Example.slope
                         [("w"%char, Some "5"%string)] [("x"%char, None)] None 0%nat
                         (Example.env []) eq_refl))).
Defined.

(** ** Reading and subsampling, further *)

Lemma read_data_until_junk_n (n : nat) :
  forall ds, (length ds <= n)%nat ->
  forall rest i base x y,
    read_data (map Num ds ++ Junk :: rest) i base x y
    = read_data (map Num ds) i base x y.
Proof.
  induction n as [|n IH]; intros ds Hn rest i base x y.
  - destruct ds; [reflexivity|simpl in Hn; lia].
  - destruct ds as [|f [|g ds]]; try reflexivity.
    cbn [map app read_data]. apply IH. simpl in Hn. lia.
Qed.

(** X6: the reading stops at the first field that is not a number:
    whatever follows it in the input changes nothing of what was read. *)
Theorem read_data_until_junk (ds : list datum) (rest : instream)
    (i : Z) (base : datum) (x y : list datum) :
  read_data (map Num ds ++ Junk :: rest) i base x y
  = read_data (map Num ds) i base x y.
Proof. apply (read_data_until_junk_n (length ds)). lia. Qed.

(** What holds when the subsampling loop ends, whatever the fuel. *)
Lemma subsample_loop_inv step (x0 y0 : list datum) :
  let s := Z.to_nat step in
  (1 <= s)%nat ->
  forall fuel k x y x' y' m m',
    sampled s k x0 x -> sampled s k y0 y ->
    subsample_loop fuel step x y k k (k * s) (k * s) = Finished (x', y', m, m') ->
    m = m' /\ (k <= m)%nat /\ sampled s m x0 x' /\ sampled s m y0 y'.
Proof.
  intros s Hs.
  induction fuel as [|fuel IH]; intros k x y x' y' m m' Hx Hy H; [discriminate|].
  cbn [subsample_loop] in H.
  destruct ((k * s <? length x)%nat && (k * s <? length y)%nat).
  - destruct (x !! (k * s)%nat) as [vx|] eqn:Ex; [|discriminate].
    destruct (y !! (k * s)%nat) as [vy|] eqn:Ey; [|discriminate].
    destruct ((k <? length x)%nat && (k <? length y)%nat); [|discriminate].
    fold s in H. replace (k * s + s)%nat with (S k * s)%nat in H by lia.
    apply IH in H.
    + destruct H as (E & Hk & Hx' & Hy').
      split; [exact E|]. split; [lia|]. split; assumption.
    + apply sampled_step; auto. now rewrite <- (sampled_read s k x0 x Hs Hx).
    + apply sampled_step; auto. now rewrite <- (sampled_read s k y0 y Hs Hy).
  - inversion H; subst. auto.
Qed.

(** The loop dereferences its iterators in bounds. *)
Lemma subsample_loop_safe step :
  (1 <= Z.to_nat step)%nat ->
  forall fuel (x y : list datum) k o,
    (k <= o)%nat ->
    subsample_loop fuel step x y k k o o <> Undefined.
Proof.
  intros Hs. induction fuel as [|fuel IH]; intros x y k o Hk; [discriminate|].
  cbn [subsample_loop].
  destruct (Nat.ltb_spec o (length x)) as [Hx|Hx]; [|discriminate].
  destruct (Nat.ltb_spec o (length y)) as [Hy|Hy]; [|discriminate].
  cbn [andb].
  destruct (lookup_lt_is_Some_2 x o Hx) as [vx ->].
  destruct (lookup_lt_is_Some_2 y o Hy) as [vy ->].
  destruct (Nat.ltb_spec k (length x)); [|lia].
  destruct (Nat.ltb_spec k (length y)); [|lia].
  cbn [andb]. apply IH. lia.
Qed.

(** X7: the subsampling never reads or writes outside the vectors,
    whatever their sizes and whatever the step; and when it ends after a
    step greater than 1, or on vectors of equal size, the two vectors it
    leaves have the same size. *)
Theorem subsample_in_bounds (fuel : nat) (step : Z) (x y : list datum) :
  subsample fuel step x y <> Undefined /\
  forall x' y',
    subsample fuel step x y = Finished (x', y') ->
    1 < step \/ length x = length y ->
    length x' = length y'.
Proof.
  unfold subsample. destruct (Z.ltb_spec 1 step) as [Hstep|Hstep].
  - pose proof (subsample_loop_safe step ltac:(lia) fuel x y 0%nat 0%nat (le_n _)) as Hsafe.
    destruct (subsample_loop fuel step x y 0 0 0 0) as [[[[x1 y1] m] m']| |] eqn:Hl;
      [|contradiction|].
    + split; [discriminate|].
      intros x' y' H _. inversion H; subst.
      destruct (subsample_loop_inv step x y ltac:(lia) fuel 0%nat x y x1 y1 m m'
                  (sampled_start _ x) (sampled_start _ y) Hl) as (-> & _).
      now rewrite !length_resize.
    + split; [discriminate|]. intros x' y' H. discriminate.
  - split; [discriminate|].
    intros x' y' H [Hs|Hlen]; [lia|]. now inversion H; subst.
Qed.

Lemma subsample_in_bounds_witness :
  subsample 9 2 [1; 2; 3; 4; 5]%float [10; 20]%float
  = Finished ([1]%float, [10]%float).
Proof.
  destruct (subsample_in_bounds 9 2 [1; 2; 3; 4; 5]%float [10; 20]%float)
    as [Hsafe Hlen].
  destruct (subsample 9 2 [1; 2; 3; 4; 5]%float [10; 20]%float)
    as [[x' y']| |] eqn:E; [|contradiction|vm_compute in E; discriminate].
  pose proof (Hlen x' y' eq_refl (or_introl eq_refl)) as Hsame.
  vm_compute in E. inversion E; subst. reflexivity.
Defined.

(** X8: a step that is greater than 1 and at least the number of
    abscissas leaves the first point alone, with two rounds of fuel. *)
Theorem subsample_large_step (fuel : nat) (step : Z)
    (x0 y0 : datum) (xs ys : list datum) :
  1 < step ->
  Z.of_nat (length (x0 :: xs)) <= step ->
  (2 <= fuel)%nat ->
  subsample fuel step (x0 :: xs) (y0 :: ys) = Finished ([x0], [y0]).
Proof.
  intros Hstep Hbig Hfuel.
  destruct fuel as [|[|fuel]]; [lia|lia|].
  unfold subsample. destruct (Z.ltb_spec 1 step); [|lia].
  cbn [subsample_loop length lookup list_lookup Nat.ltb Nat.leb andb
       insert list_insert Nat.add].
  cbn [length] in Hbig.
  destruct (Nat.leb_spec (Z.to_nat step) (length xs)); [lia|].
  cbn [andb resize]. now rewrite !resize_0.
Qed.

Lemma subsample_large_step_witness :
  subsample 2 5 [1; 2; 3]%float [10; 20; 30]%float = Finished ([1]%float, [10]%float).
Proof.
  exact (subsample_large_step 2 5 1 10 [2; 3]%float [20; 30]%float
           eq_refl ltac:(simpl; lia) (le_n 2)).
Defined.

(** ** The table of [DumpSpline], further *)

Section TableStreams.

Variable SplineT : Type.
Variable evaluate : SplineT -> datum -> datum.
Variable slope : SplineT -> datum -> datum.

Local Abbreviation dump_loop' := (dump_loop SplineT evaluate slope).
Local Abbreviation DumpSpline' := (DumpSpline SplineT evaluate slope).
Local Abbreviation table_rows' := (table_rows SplineT evaluate slope).
Local Abbreviation squares' := (squares SplineT evaluate).
Local Abbreviation row' := (row SplineT evaluate slope).

(** The loop follows [xv]: entries of [yv] beyond its size are not read. *)
Lemma dump_loop_rows_le (xv yv : list datum) spline out :
  (length xv <= length yv)%nat ->
  (1 <= length xv)%nat ->
  Z.of_nat (length xv) < 2 ^ 31 ->
  forall fuel k variance,
    (k <= length xv)%nat ->
    (length xv - k < fuel)%nat ->
    dump_loop' fuel xv yv spline out (2 * Z.of_nat k) variance
    = Finished (squares' spline (drop k xv) (drop k yv) variance,
                concat (table_rows' spline out (drop k xv) (drop k yv))).
Proof.
  intros Hlen H1 Hn.
  assert (wrap_size (2 * Z.of_nat (length xv) - 1) = 2 * Z.of_nat (length xv) - 1)
    as Hbound by (unfold wrap_size, SIZE_WIDTH; apply Z.mod_small; lia).
  induction fuel as [|fuel IH]; intros k variance Hk Hfuel; [lia|].
  cbn [dump_loop]. rewrite Hbound.
  destruct (Z.ltb_spec (2 * Z.of_nat k) (2 * Z.of_nat (length xv) - 1)) as [Hlt|Hge].
  - destruct (even_index (Z.of_nat k) ltac:(lia)) as (-> & -> & ->).
    rewrite Nat2Z.id.
    destruct (lookup_lt_is_Some_2 xv k ltac:(lia)) as [x Hx].
    destruct (lookup_lt_is_Some_2 yv k ltac:(lia)) as [y Hy].
    rewrite Hx, Hy.
    replace (wrap_uint (2 * Z.of_nat k + (2 - Z.b2z evalmid)))
      with (2 * Z.of_nat (S k)).
    2:{ unfold wrap_uint, UINT_WIDTH, evalmid. simpl Z.b2z.
        rewrite Z.mod_small; lia. }
    rewrite IH by lia.
    rewrite (drop_S xv x k Hx), (drop_S yv y k Hy). reflexivity.
  - rewrite (drop_ge xv) by lia. reflexivity.
Qed.

(** With a [yv] shorter than [xv] the loop reads [yv] past its end. *)
Lemma dump_loop_short_yv (xv yv : list datum) spline out :
  (length yv < length xv)%nat ->
  Z.of_nat (length xv) < 2 ^ 31 ->
  forall fuel k variance,
    (k <= length yv)%nat ->
    (length yv - k < fuel)%nat ->
    dump_loop' fuel xv yv spline out (2 * Z.of_nat k) variance = Undefined.
Proof.
  intros Hlen Hn.
  assert (wrap_size (2 * Z.of_nat (length xv) - 1) = 2 * Z.of_nat (length xv) - 1)
    as Hbound by (unfold wrap_size, SIZE_WIDTH; apply Z.mod_small; lia).
  induction fuel as [|fuel IH]; intros k variance Hk Hfuel; [lia|].
  cbn [dump_loop]. rewrite Hbound.
  destruct (Z.ltb_spec (2 * Z.of_nat k) (2 * Z.of_nat (length xv) - 1)) as [_|Hge];
    [|lia].
  destruct (even_index (Z.of_nat k) ltac:(lia)) as (-> & -> & ->).
  rewrite Nat2Z.id.
  destruct (lookup_lt_is_Some_2 xv k ltac:(lia)) as [x ->].
  destruct (Nat.eq_dec k (length yv)) as [E|E].
  - rewrite (proj2 (lookup_ge_None yv k)) by lia. reflexivity.
  - destruct (lookup_lt_is_Some_2 yv k ltac:(lia)) as [y ->].
    replace (wrap_uint (2 * Z.of_nat k + (2 - Z.b2z evalmid)))
      with (2 * Z.of_nat (S k)).
    2:{ unfold wrap_uint, UINT_WIDTH, evalmid. simpl Z.b2z.
        rewrite Z.mod_small; lia. }
    rewrite IH by lia. reflexivity.
Qed.

(** X9: the loop of [DumpSpline] is bounded by the size of [xv] alone.
    With at least one and fewer than 2^31 abscissas: when [yv] has at
    least as many entries, the table has one row per abscissa and the
    ordinates beyond are not read; when [yv] has fewer, [yv] is read
    past its end. *)
Theorem dump_follows_xv (fuel : nat) (xv yv : list datum) (spline : SplineT)
    (out : ostream) (debug : bool) :
  (1 <= length xv)%nat ->
  Z.of_nat (length xv) < 2 ^ 31 ->
  (length xv < fuel)%nat ->
  ((length xv <= length yv)%nat ->
   DumpSpline' fuel xv yv spline out debug
   = DumpSpline' fuel xv (take (length xv) yv) spline out debug /\
   exists tr, DumpSpline' fuel xv yv spline out debug = Finished tr) /\
  ((length yv < length xv)%nat ->
   DumpSpline' fuel xv yv spline out debug = Undefined).
Proof.
  intros H1 Hn Hfuel. split.
  - intros Hlen. unfold DumpSpline.
    pose proof (dump_loop_rows_le xv yv spline out Hlen H1 Hn fuel 0%nat 0%float
                  (Nat.le_0_l _) ltac:(lia)) as E1.
    pose proof (dump_loop_rows_le xv (take (length xv) yv) spline out
                  ltac:(rewrite length_take; lia) H1 Hn fuel 0%nat 0%float
                  (Nat.le_0_l _) ltac:(lia)) as E2.
    change (2 * Z.of_nat 0) with 0 in E1, E2. rewrite E1, E2.
    rewrite !drop_0.
    assert (forall (l k : list datum) v,
               squares' spline l (take (length l) k) v = squares' spline l k v /\
               table_rows' spline out l (take (length l) k)
               = table_rows' spline out l k) as Htake.
    { induction l as [|a l IH]; intros [|b k] v; try (split; reflexivity).
      cbn [length take squares table_rows].
      destruct (IH k (v + (evaluate spline ((a + a) / 2) - b)
                          * (evaluate spline ((a + a) / 2) - b))%float) as [-> ->].
      split; reflexivity. }
    destruct (Htake xv yv 0%float) as [-> ->].
    split; [reflexivity|eauto].
  - intros Hlen. unfold DumpSpline.
    pose proof (dump_loop_short_yv xv yv spline out Hlen Hn fuel 0%nat 0%float
                  (Nat.le_0_l _) ltac:(lia)) as E.
    change (2 * Z.of_nat 0) with 0 in E. rewrite E.
    reflexivity.
Qed.

End TableStreams.

Section TableOutput.

Variable SplineT : Type.
Variable evaluate : SplineT -> datum -> datum.
Variable slope : SplineT -> datum -> datum.

Local Abbreviation dump_loop' := (dump_loop SplineT evaluate slope).
Local Abbreviation DumpSpline' := (DumpSpline SplineT evaluate slope).

Lemma ostream_eqb_refl os : ostream_eqb os os = true.
Proof. destruct os; simpl; auto. apply String.eqb_refl. Qed.

Lemma dump_loop_on_out fuel (xv yv : list datum) spline out :
  forall i v v' tr,
    dump_loop' fuel xv yv spline out i v = Finished (v', tr) ->
    forallb (only_on out) tr = true.
Proof.
  induction fuel as [|fuel IH]; intros i v v' tr H; [discriminate|].
  cbn [dump_loop] in H.
  destruct (i <? _); [|inversion H; reflexivity].
  repeat match type of H with
         | match ?o with Some _ => _ | None => _ end = _ =>
             destruct o; [|discriminate]
         end.
  match type of H with
  | match ?r with Finished _ => _ | Undefined => _ | OutOfFuel => _ end = _ =>
      destruct r as [[v1 tr1]| |] eqn:Hr; [|discriminate|discriminate]
  end.
  inversion H; subst. apply IH in Hr.
  unfold row. cbn [app forallb only_on stream_of].
  rewrite ostream_eqb_refl, Hr. reflexivity.
Qed.

Lemma dump_writes_on_out_cells fuel (xv yv : list datum) spline out dbg tr :
  DumpSpline' fuel xv yv spline out dbg = Finished tr ->
  exists table variance,
    tr = table ++ variance_report dbg variance /\
    forallb (only_on out) table = true /\
    forallb (only_on Cerr) (variance_report dbg variance) = true.
Proof.
  unfold DumpSpline.
  destruct (dump_loop' fuel xv yv spline out 0 0%float) as [[v rows]| |] eqn:Hl;
    [|discriminate|discriminate].
  intros H. inversion H; subst. clear H.
  apply dump_loop_on_out in Hl.
  exists (header out ++ rows), (v / datum_of_size (Z.of_nat (length xv)))%float.
  split; [now rewrite <- app_assoc|]. split.
  - rewrite forallb_app, Hl. unfold header. cbn [forallb only_on stream_of].
    now rewrite ostream_eqb_refl.
  - destruct dbg; reflexivity.
Qed.

(** X10: whatever [DumpSpline] writes for the table (the header and the
    rows) goes to [out]; the one thing written elsewhere is the variance
    line, to [cerr] and under [debug] only. *)
Theorem dump_writes_on_out (fuel : nat) (xv yv : list datum) (spline : SplineT)
    (out : ostream) (debug : bool) (tr : trace) :
  DumpSpline' fuel xv yv spline out debug = Finished tr ->
  exists table variance,
    tr = table ++ variance_report debug variance /\
    forallb (only_on out) table = true /\
    forallb (only_on Cerr) (variance_report debug variance) = true /\
    (debug = false -> tr = table).
Proof.
  unfold DumpSpline.
  destruct (dump_loop' fuel xv yv spline out 0 0%float) as [[v rows]| |] eqn:Hl;
    [|discriminate|discriminate].
  intros H. inversion H; subst. clear H.
  apply dump_loop_on_out in Hl.
  exists (header out ++ rows), (v / datum_of_size (Z.of_nat (length xv)))%float.
  split; [now rewrite <- app_assoc|]. split; [|split].
  - rewrite forallb_app, Hl. unfold header. cbn [forallb only_on stream_of].
    now rewrite ostream_eqb_refl.
  - destruct debug; reflexivity.
  - intros ->. now rewrite app_nil_r.
Qed.

End TableOutput.

Lemma dump_follows_xv_witness :
  DumpSpline Core.CurveFit Example.evaluate Example.slope 3
    [0; 2]%float [1]%float
    (Example.construct [0; 2]%float [1]%float 1 BC_ZERO_SECOND 0) Cout false
  = Undefined /\
  DumpSpline Core.CurveFit Example.evaluate Example.slope 3
    [0]%float [1; 5]%float
    (Example.construct [0]%float [1; 5]%float 1 BC_ZERO_SECOND 0) Cout false
  = DumpSpline Core.CurveFit Example.evaluate Example.slope 3
    [0]%float [1]%float
    (Example.construct [0]%float [1; 5]%float 1 BC_ZERO_SECOND 0) Cout false.
Proof.
  split.
  - exact (proj2 (dump_follows_xv Core.CurveFit Example.evaluate Example.slope 3
                    [0; 2]%float [1]%float
                    (Example.construct [0; 2]%float [1]%float 1 BC_ZERO_SECOND 0)
                    Cout false ltac:(simpl; lia) ltac:(simpl; lia) ltac:(simpl; lia))
             ltac:(simpl; lia)).
  - exact (proj1 (proj1 (dump_follows_xv Core.CurveFit Example.evaluate Example.slope 3
                    [0]%float [1; 5]%float
                    (Example.construct [0]%float [1; 5]%float 1 BC_ZERO_SECOND 0)
                    Cout false ltac:(simpl; lia) ltac:(simpl; lia) ltac:(simpl; lia))
             ltac:(simpl; lia))).
Defined.

Lemma dump_writes_on_out_witness :
  exists table variance,
    header Cout ++
    [Out Cout 10 (Dbl 0); Out Cout 10 (Dbl 1); CallEvaluate 0;
     Out Cout 15 (Dbl 0); CallSlope 0; Out Cout 20 (Dbl 1); Endl Cout;
     Out Cerr 0 (Str "Variance: "); Out Cerr 0 (Dbl 1); Endl Cerr]
    = table ++ variance_report true variance /\
    forallb (only_on Cout) table = true.
Proof.
  destruct (dump_writes_on_out Core.CurveFit Example.evaluate Example.slope 3
              [0]%float [1]%float
              (Example.construct [0]%float [1]%float 1 BC_ZERO_SECOND 0) Cout true
              _ eq_refl) as (table & variance & E & Hout & _).
  exists table, variance. split; [exact E|exact Hout].
Defined.

(** ** The runs of [main], further *)

Section MainRuns.

Variable atoi : string -> Z.
Variable atof : string -> datum.
Variable SplineT : Type.
Variable Version : string.
Variable construct :
  list datum -> list datum -> datum -> BoundaryCondition -> Z -> SplineT.
Variable ok : SplineT -> bool.
Variable evaluate : SplineT -> datum -> datum.
Variable slope : SplineT -> datum -> datum.

Local Abbreviation parseCommandLine' := (parseCommandLine atoi atof Version).
Local Abbreviation option_loop' := (option_loop atoi atof Version).
Local Abbreviation main' :=
  (main atoi atof SplineT Version construct ok evaluate slope).

(** How the loop and [parseCommandLine] exit: with status 0 after the
    help or the version, with status 1 after the usage message on
    [cerr]. *)
Lemma option_loop_exits_how ys :
  forall a0 e0 code tr,
    option_loop' ys a0 e0 = LoopExit code tr ->
    code = 0 /\ (tr = help_report \/ tr = version_report Version).
Proof.
  induction ys as [|[c0 arg] ys IH]; intros a0 e0 code tr Hl; [discriminate|].
  cbn [option_loop] in Hl.
  destruct (c0 =? "000")%char; [discriminate|].
  destruct (option_switch atoi atof Version c0 arg a0 e0) eqn:Hs; [|eauto].
  inversion Hl; subst.
  apply option_switch_exit in Hs as [-> [[_ ->]|[_ ->]]];
    (split; [reflexivity|]); [left|right]; reflexivity.
Qed.

Lemma parse_exits_how ys infile0 outfile0 code tr :
  parseCommandLine' ys infile0 outfile0 = Exits code tr ->
  (code = 0 /\ (tr = help_report \/ tr = version_report Version)) \/
  (code = 1 /\ tr = [Usage Cerr]).
Proof.
  unfold parseCommandLine.
  destruct (option_loop' ys _ 0) as [c t|a1 e1] eqn:Hl.
  - intros H; inversion H; subst. left. eapply option_loop_exits_how, Hl.
  - destruct (_ =? 0); intros H; inversion H; auto.
Qed.

(** X11: a run of [main] that ends has status 0 or 1, and status 1
    means that nothing was fitted: either the usage message went to
    [cerr], or a file could not be opened; a spline that fails to set up
    ends the run with status 0 all the same. *)
Theorem main_exit_status (fuel : nat) (ys : list optyield) (env : Env)
    (code : Z) (tr : trace) :
  main' fuel ys env = Finished (code, tr) ->
  (code = 0 \/ code = 1) /\
  (code = 1 ->
   List.filter is_construct tr = [] /\
   (tr = [Usage Cerr] \/
    exists a name, parseCommandLine' ys "" "" = Proceeds a /\
                   tr = report_args a ++ unable_to_open name)) /\
  (forall x y wl b n, In (CallConstruct x y wl b n) tr -> code = 0).
Proof.
  intros Hm. pose proof (main_shapes _ _ _ _ _ _ _ _ _ _ _ _ _ Hm) as Hs.
  destruct Hs as [Hp|(a & Hp & [(name & -> & ->)|(x' & y' & Hcode & Hrest)])].
  - pose proof (parse_exit_no_call _ _ _ _ _ _ _ _ Hp) as [Hnc _].
    apply parse_exits_how in Hp as [[-> _]|[-> ->]].
    + split; [auto|]. split; [lia|auto].
    + split; [auto|]. split; [auto|].
      intros x y wl b n [H|[]]. discriminate.
  - split; [auto|]. split.
    + intros _. split; [|eauto].
      rewrite List.filter_app.
      destruct (report_args_no_call a) as (-> & _). reflexivity.
    + intros x y wl b n Hin. exfalso.
      assert (In (CallConstruct x y wl b n)
                (List.filter is_construct (report_args a ++ unable_to_open name))) as Hf
        by (apply List.filter_In; auto).
      rewrite List.filter_app in Hf.
      destruct (report_args_no_call a) as (E & _). rewrite E in Hf. exact Hf.
  - cbv zeta in Hcode. subst code. split; [auto|]. split; [lia|auto].
Qed.

(** X12: without an argument for [-i] and for [-o], [main] opens no
    file: its run depends on the standard input alone. *)
Theorem main_without_files (fuel : nat) (ys : list optyield) (env env' : Env) :
  given "i" ys = false ->
  given "o" ys = false ->
  stdin env = stdin env' ->
  main' fuel ys env = main' fuel ys env'.
Proof.
  intros Hi Ho Hin. unfold main.
  destruct (parseCommandLine' ys "" "") as [c t|a] eqn:Hp; [reflexivity|].
  apply parse_proceeds in Hp as [err Hloop].
  apply option_loop_frame in Hloop as (_ & Ei & Eo & _).
  rewrite (Ei Hi), (Eo Ho), Hin. reflexivity.
Qed.

End MainRuns.

Section MainData.

Variable atoi : string -> Z.
Variable atof : string -> datum.
Variable SplineT : Type.
Variable Version : string.
Variable construct :
  list datum -> list datum -> datum -> BoundaryCondition -> Z -> SplineT.
Variable ok : SplineT -> bool.
Variable evaluate : SplineT -> datum -> datum.
Variable slope : SplineT -> datum -> datum.

Local Abbreviation parseCommandLine' := (parseCommandLine atoi atof Version).
Local Abbreviation main' :=
  (main atoi atof SplineT Version construct ok evaluate slope).

(** The vectors of a constructor call are the data read from the input
    and then subsampled. *)
Lemma main_data fuel ys env code tr x y wl b n :
  main' fuel ys env = Finished (code, tr) ->
  In (CallConstruct x y wl b n) tr ->
  exists a ins,
    parseCommandLine' ys "" "" = Proceeds a /\
    (if nonempty (infile a) then open_ifstream env (infile a)
     else Some (stdin env)) = Some ins /\
    subsample fuel (step a)
      (rd_x (read_data ins 0 0%float [] [])) (rd_y (read_data ins 0 0%float [] []))
    = Finished (x, y).
Proof.
  intros Hm Hin.
  assert (In (CallConstruct x y wl b n) (List.filter is_construct tr)) as Hf
    by (apply List.filter_In; auto).
  clear Hin. revert Hm. unfold main.
  destruct (parseCommandLine' ys "" "") as [c t|a] eqn:Hp.
  - intros H; inversion H; subst.
    apply parse_exit_no_call in Hp as [Hp _]. rewrite Hp in Hf. destruct Hf.
  - destruct (if nonempty (infile a) then _ else _) as [ins|] eqn:Hins.
    2:{ intros H; inversion H; subst. exfalso.
        rewrite List.filter_app, (proj1 (report_args_no_call a)) in Hf.
        exact Hf. }
    destruct (nonempty (outfile a) && _).
    { intros H; inversion H; subst. exfalso.
      rewrite List.filter_app, (proj1 (report_args_no_call a)) in Hf.
      exact Hf. }
    destruct (subsample _ _ _ _) as [[x' y']| |] eqn:Hsub; [|discriminate|discriminate].
    assert (forall rest, List.filter is_construct rest = [] ->
              In (CallConstruct x y wl b n)
                 (List.filter is_construct
                    (report_args a ++ setup_spline a x' y' ++ rest)) ->
              x = x' /\ y = y') as Hone.
    { intros rest Hrest Hin. rewrite !List.filter_app in Hin.
      rewrite (proj1 (report_args_no_call a)),
        (proj1 (setup_spline_calls a x' y')), Hrest in Hin.
      destruct Hin as [E|[]]. now inversion E. }
    destruct (ok _).
    + destruct (DumpSpline _ _ _ _ _ _ _ _ _) as [tr_dump| |] eqn:Hd;
        [|discriminate|discriminate].
      intros H; inversion H; subst.
      destruct (Hone tr_dump (DumpSpline_no_construct _ _ _ _ _ _ _ _ _ _ Hd) Hf)
        as [-> ->].
      exists a, ins. auto.
    + intros H; inversion H; subst.
      destruct (Hone setup_failed eq_refl Hf) as [-> ->].
      exists a, ins. auto.
Qed.

End MainData.

(** The first abscissa read is the first value minus itself. *)
Lemma read_first_abscissa (s : instream) (v : datum) :
  rd_x (read_data s 0 0%float [] []) !! 0%nat = Some v ->
  datum_finite (first_value s) = true ->
  v = 0%float.
Proof.
  destruct s as [|[f|] [|[g|] rest]]; try discriminate.
  cbn [read_data first_value].
  change (wrap_int (0 + 1) =? 1) with true. cbv iota.
  destruct (read_data_sizes rest (length rest) (le_n _) (wrap_int (0 + 1)) f
              ([] ++ [(f - f)%float]) ([] ++ [g]) eq_refl) as (_ & _ & t & ->).
  intros Hv Hf. simpl in Hv. inversion Hv; subst. apply datum_sub_diag, Hf.
Qed.

(** The subsampling keeps the first element, and keeps equal sizes
    equal. *)
Lemma subsample_first fuel step (x y x' y' : list datum) v :
  subsample fuel step x y = Finished (x', y') ->
  x' !! 0%nat = Some v ->
  x !! 0%nat = Some v \/ v = 0%float.
Proof.
  unfold subsample. destruct (Z.ltb_spec 1 step) as [Hstep|Hstep].
  - destruct (subsample_loop fuel step x y 0 0 0 0) as [[[[x1 y1] m] m']| |] eqn:Hl;
      [|discriminate|discriminate].
    intros H Hv. inversion H; subst. clear H.
    destruct (subsample_loop_inv step x y ltac:(lia) fuel 0%nat x y x1 y1 m m'
                (sampled_start _ x) (sampled_start _ y) Hl)
      as (_ & _ & (Hlen & Hdone & _) & _).
    destruct m as [|m]; [rewrite resize_0 in Hv; discriminate|].
    destruct x1 as [|w t].
    + right. rewrite resize_nil in Hv.
      apply lookup_replicate_1 in Hv. tauto.
    + left. cbn [resize] in Hv. simpl in Hv. inversion Hv; subst.
      pose proof (Hdone 0%nat ltac:(lia)) as E. simpl in E. now rewrite <- E.
  - intros H Hv. inversion H; subst. auto.
Qed.

Lemma subsample_sizes fuel step (x y x' y' : list datum) :
  subsample fuel step x y = Finished (x', y') ->
  length x = length y -> length x' = length y'.
Proof.
  unfold subsample. destruct (Z.ltb_spec 1 step) as [Hstep|Hstep].
  - destruct (subsample_loop fuel step x y 0 0 0 0) as [[[[x1 y1] m] m']| |] eqn:Hl;
      [|discriminate|discriminate].
    intros H _. inversion H; subst.
    destruct (subsample_loop_inv step x y ltac:(lia) fuel 0%nat x y x1 y1 m m'
                (sampled_start _ x) (sampled_start _ y) Hl) as (-> & _).
    now rewrite !length_resize.
  - intros H Hlen. now inversion H; subst.
Qed.

(** X13: every constructor call of [main] gets an abscissa vector and an
    ordinate vector of the same size, read from the input the command
    line names and subsampled by [step]; and when the first value of that
    input is finite, the first abscissa handed over is exactly 0. *)
Theorem main_hands_over_aligned_data
    (atoi : string -> Z) (atof : string -> datum) (SplineT : Type)
    (Version : string)
    (construct : list datum -> list datum -> datum -> BoundaryCondition -> Z -> SplineT)
    (ok : SplineT -> bool) (evaluate slope : SplineT -> datum -> datum)
    (fuel : nat) (ys : list optyield) (env : Env) (code : Z) (tr : trace)
    (x y : list datum) (wl : datum) (b : BoundaryCondition) (n : Z) :
  main atoi atof SplineT Version construct ok evaluate slope fuel ys env
  = Finished (code, tr) ->
  In (CallConstruct x y wl b n) tr ->
  length x = length y /\
  exists a ins,
    parseCommandLine atoi atof Version ys "" "" = Proceeds a /\
    (if nonempty (infile a) then open_ifstream env (infile a)
     else Some (stdin env)) = Some ins /\
    subsample fuel (step a)
      (rd_x (read_data ins 0 0%float [] [])) (rd_y (read_data ins 0 0%float [] []))
    = Finished (x, y) /\
    (forall v, x !! 0%nat = Some v ->
               datum_finite (first_value ins) = true -> v = 0%float).
Proof.
  intros Hm Hin.
  destruct (main_data _ _ _ _ _ _ _ _ _ _ _ _ _ _ _ _ _ _ Hm Hin)
    as (a & ins & Hp & Hins & Hsub).
  split.
  - apply (subsample_sizes _ _ _ _ _ _ Hsub).
    apply (read_data_sizes ins (length ins) (le_n _) 0 0%float [] [] eq_refl).
  - exists a, ins. repeat (split; [assumption|]).
    intros v Hv Hf.
    destruct (subsample_first _ _ _ _ _ _ _ Hsub Hv) as [H0|H0]; [|exact H0].
    exact (read_first_abscissa ins v H0 Hf).
Qed.

Lemma main_exit_status_witness :
  Example.run_main 8 [("w"%char, Some "5"%string); ("i"%char, Some "data.txt"%string)]
    (Example.env (Example.line 5))
  = Finished (1, unable_to_open "data.txt") /\
  List.filter is_construct (unable_to_open "data.txt") = [].
Proof.
  assert (Example.run_main 8
            [("w"%char, Some "5"%string); ("i"%char, Some "data.txt"%string)]
            (Example.env (Example.line 5))
          = Finished (1, unable_to_open "data.txt")) as Hm by (vm_compute; reflexivity).
  split; [exact Hm|].
  exact (proj1 (proj1 (proj2 (main_exit_status
                                Example.atoi Example.atof Core.CurveFit
                                (BSPLINE_VERSION None) Example.construct Core.ok
                                Example.evaluate Example.slope _ _ _ _ _ Hm))
                  eq_refl)).
Defined.

Lemma main_without_files_witness :
  Example.run_main 8 [("w"%char, Some "5"%string)] (Example.env (Example.line 5))
  = Example.run_main 8 [("w"%char, Some "5"%string)]
      {| stdin := Example.line 5;
         open_ifstream := fun _ => Some [];
         open_ofstream := fun _ => true |}.
Proof.
  exact (main_without_files Example.atoi Example.atof Core.CurveFit
           (BSPLINE_VERSION None) Example.construct Core.ok
           Example.evaluate Example.slope 8 [("w"%char, Some "5"%string)]
           (Example.env (Example.line 5)) _ eq_refl eq_refl eq_refl).
Defined.

Lemma main_hands_over_witness :
  exists tr,
    Example.run_main 8 [("w"%char, Some "5"%string); ("s"%char, Some "2"%string)]
      (Example.env (Example.line 5)) = Finished (0, tr) /\
    In (CallConstruct [0; 2; 4]%float [0; 2; 4]%float 5%float BC_ZERO_SECOND 0) tr /\
    length [0; 2; 4]%float = length [0; 2; 4]%float.
Proof.
  assert (Example.run_main 8
            [("w"%char, Some "5"%string); ("s"%char, Some "2"%string)]
            (Example.env (Example.line 5))
          = Finished (0, [CallConstruct [0; 2; 4]%float [0; 2; 4]%float 5%float
                            BC_ZERO_SECOND 0;
                          Out Cerr 0 (Str "Spline setup failed."); Endl Cerr])) as Hm
    by (vm_compute; reflexivity).
  eexists. split; [exact Hm|]. split; [left; reflexivity|].
  exact (proj1 (main_hands_over_aligned_data
                  Example.atoi Example.atof Core.CurveFit (BSPLINE_VERSION None)
                  Example.construct Core.ok Example.evaluate Example.slope
                  _ _ _ _ _ _ _ _ _ _ Hm (or_introl eq_refl))).
Defined.

Lemma ostream_eqb_eq a b : ostream_eqb a b = true -> a = b.
Proof.
  destruct a, b; simpl; try discriminate; auto.
  intros H. apply String.eqb_eq in H. now subst.
Qed.

(** The cells of a table are written to the stream of the table. *)
Lemma dump_table_cells (SplineT : Type) (evaluate slope : SplineT -> datum -> datum)
    fuel (xv yv : list datum) spline out dbg tr e :
  DumpSpline SplineT evaluate slope fuel xv yv spline out dbg = Finished tr ->
  In e tr -> is_table_output e = true -> stream_of e = Some out.
Proof.
  intros Hd Hin Hcell.
  destruct (dump_writes_on_out_cells SplineT evaluate slope fuel xv yv spline out dbg tr Hd)
    as (table & variance & -> & Hout & Hvar).
  apply in_app_or in Hin as [Hin|Hin].
  - rewrite forallb_forall in Hout. specialize (Hout e Hin).
    unfold only_on in Hout. destruct e; try discriminate.
    simpl in *. apply ostream_eqb_eq in Hout. now subst.
  - exfalso. destruct dbg; simpl in Hin; [|exact Hin].
    destruct Hin as [<-|[<-|[<-|[]]]]; discriminate.
Qed.

(** X14: the table goes where [-o] says: in every run of [main] each
    cell of the table is written to the file named by the [-o] argument,
    and to [cout] when there is none or it is empty. *)
Theorem table_goes_to_named_output
    (atoi : string -> Z) (atof : string -> datum) (SplineT : Type)
    (Version : string)
    (construct : list datum -> list datum -> datum -> BoundaryCondition -> Z -> SplineT)
    (ok : SplineT -> bool) (evaluate slope : SplineT -> datum -> datum)
    (fuel : nat) (ys : list optyield) (env : Env) (code : Z) (tr : trace)
    (a : Args) (e : event) :
  main atoi atof SplineT Version construct ok evaluate slope fuel ys env
  = Finished (code, tr) ->
  parseCommandLine atoi atof Version ys "" "" = Proceeds a ->
  In e tr ->
  is_table_output e = true ->
  stream_of e = Some (if nonempty (outfile a) then OutFile (outfile a) else Cout).
Proof.
  intros Hm Hp Hin Hcell. revert Hm. unfold main. rewrite Hp.
  assert (forall l, List.filter is_table_output l = [] -> ~ In e l) as Hnone.
  { intros l Hl Hi.
    assert (In e (List.filter is_table_output l)) as Hf by (apply List.filter_In; auto).
    rewrite Hl in Hf. exact Hf. }
  assert (List.filter is_table_output (report_args a) = []) as Hr
    by (destruct (report_args_no_call a) as (_ & _ & H); exact H).
  destruct (if nonempty (infile a) then _ else _) as [ins|].
  2:{ intros H; inversion H; subst. exfalso.
      apply in_app_or in Hin as [Hin|Hin]; [exact (Hnone _ Hr Hin)|].
      exact (Hnone (unable_to_open (infile a)) eq_refl Hin). }
  destruct (nonempty (outfile a) && _).
  { intros H; inversion H; subst. exfalso.
    apply in_app_or in Hin as [Hin|Hin]; [exact (Hnone _ Hr Hin)|].
    exact (Hnone (unable_to_open (outfile a)) eq_refl Hin). }
  destruct (subsample _ _ _ _) as [[x y]| |]; [|discriminate|discriminate].
  assert (List.filter is_table_output (setup_spline a x y) = []) as Hs
    by (destruct (setup_spline_calls a x y) as (_ & _ & H); exact H).
  destruct (ok _).
  - destruct (DumpSpline _ _ _ _ _ _ _ _ _) as [tr_dump| |] eqn:Hd;
      [|discriminate|discriminate].
    intros H; inversion H; subst.
    apply in_app_or in Hin as [Hin|Hin]; [exfalso; exact (Hnone _ Hr Hin)|].
    apply in_app_or in Hin as [Hin|Hin]; [exfalso; exact (Hnone _ Hs Hin)|].
    exact (dump_table_cells _ _ _ _ _ _ _ _ _ _ _ Hd Hin Hcell).
  - intros H; inversion H; subst. exfalso.
    apply in_app_or in Hin as [Hin|Hin]; [exact (Hnone _ Hr Hin)|].
    apply in_app_or in Hin as [Hin|Hin]; [exact (Hnone _ Hs Hin)|].
    exact (Hnone setup_failed eq_refl Hin).
Qed.

Lemma table_goes_to_named_output_witness :
  exists tr,
    main Example.atoi Example.atof Core.CurveFit (BSPLINE_VERSION None)
      Example.construct Core.ok Example.evaluate Example.slope 8
      [("w"%char, Some "5"%string); ("o"%char, Some "out.txt"%string)]
      {| stdin := Example.line 4;
         open_ifstream := fun _ => None;
         open_ofstream := fun _ => true |}
    = Finished (0, tr) /\
    In (Out (OutFile "out.txt") 10 (Str "x")) tr /\
    stream_of (Out (OutFile "out.txt") 10 (Str "x")) = Some (OutFile "out.txt").
Proof.
  eexists. split; [vm_compute; reflexivity|].
  split; [right; left; reflexivity|].
  refine (table_goes_to_named_output
            Example.atoi Example.atof Core.CurveFit (BSPLINE_VERSION None)
            Example.construct Core.ok Example.evaluate Example.slope 8
            [("w"%char, Some "5"%string); ("o"%char, Some "out.txt"%string)]
            {| stdin := Example.line 4;
               open_ifstream := fun _ => None;
               open_ofstream := fun _ => true |}
            0 _
            {| infile := ""; outfile := "out.txt"; step := 0; wavelength := 5%float;
               bc := BC_ZERO_SECOND; num_nodes := 0; debug := false |}
            (Out (OutFile "out.txt") 10 (Str "x")) _ eq_refl _ eq_refl).
  - vm_compute; reflexivity.
  - right; left; reflexivity.
Defined.

(** ** From the parsed command line to the constructor *)

Lemma length_pairs (s : instream) : (length (pairs s) <= length s)%nat.
Proof.
  assert (forall n s, (length s <= n)%nat -> (length (pairs s) <= length s)%nat) as H.
  { induction n as [|n IH]; intros s0 Hn.
    - destruct s0; [simpl; lia|simpl in Hn; lia].
    - destruct s0 as [|[f|] [|[g|] rest]]; simpl; try lia.
      simpl in Hn. specialize (IH rest ltac:(lia)). lia. }
  apply (H (length s)). lia.
Qed.

(** The vectors read from an input have the same size, at most that of
    the input. *)
Lemma read_data_length (s : instream) :
  length (rd_x (read_data s 0 0%float [] []))
  = length (rd_y (read_data s 0 0%float [] [])) /\
  (length (rd_x (read_data s 0 0%float [] [])) <= length s)%nat.
Proof.
  destruct (read_data_sizes s (length s) (le_n _) 0 0%float [] [] eq_refl)
    as (Hsize & Hy & _).
  split; [exact Hsize|].
  rewrite Hsize, Hy. cbn [app]. rewrite length_map. apply length_pairs.
Qed.

(** With fuel for one round per element the subsampling of vectors of
    equal size ends, with vectors of equal size that are no longer. *)
Lemma subsample_total (fuel : nat) (step : Z) (x y : list datum) :
  length x = length y ->
  (length x < fuel)%nat ->
  exists x' y',
    subsample fuel step x y = Finished (x', y') /\
    length x' = length y' /\ (length x' <= length x)%nat.
Proof.
  intros Hlen Hfuel. unfold subsample.
  destruct (Z.ltb_spec 1 step) as [Hstep|Hstep].
  - destruct (subsample_loop_spec step x y ltac:(lia) Hlen fuel 0%nat x y
                (sampled_start _ x) (sampled_start _ y) ltac:(lia) ltac:(lia))
      as (x' & y' & m & Hloop & Hx & Hy & Hup & Hlow).
    simpl in Hloop. rewrite Hloop.
    assert (m <= length x)%nat as Hmn.
    { destruct Hlow as [->|Hlow]; [lia|]. destruct m; [lia|].
      simpl in Hlow. rewrite Nat.sub_0_r in Hlow. nia. }
    exists (resize m 0%float x'), (resize m 0%float y').
    rewrite !length_resize. auto.
  - exists x, y. auto.
Qed.

Section MainCalls.

Variable atoi : string -> Z.
Variable atof : string -> datum.
Variable SplineT : Type.
Variable Version : string.
Variable construct :
  list datum -> list datum -> datum -> BoundaryCondition -> Z -> SplineT.
Variable ok : SplineT -> bool.
Variable evaluate : SplineT -> datum -> datum.
Variable slope : SplineT -> datum -> datum.

Local Abbreviation parseCommandLine' := (parseCommandLine atoi atof Version).
Local Abbreviation DumpSpline' := (DumpSpline SplineT evaluate slope).
Local Abbreviation main' :=
  (main atoi atof SplineT Version construct ok evaluate slope).

(** [main] after the parser has returned and both streams are open. *)
Lemma main_after_parse fuel ys env a ins x y :
  parseCommandLine' ys "" "" = Proceeds a ->
  (if nonempty (infile a) then open_ifstream env (infile a)
   else Some (stdin env)) = Some ins ->
  nonempty (outfile a) && negb (open_ofstream env (outfile a)) = false ->
  subsample fuel (step a)
    (rd_x (read_data ins 0 0%float [] [])) (rd_y (read_data ins 0 0%float [] []))
  = Finished (x, y) ->
  main' fuel ys env
  = let spline := construct x y (wavelength a) (bc a) (num_nodes a) in
    if ok spline then
      match DumpSpline' fuel x y spline
              (if nonempty (outfile a) then OutFile (outfile a) else Cout)
              (debug a) with
      | Finished tr_dump => Finished (0, report_args a ++ setup_spline a x y ++ tr_dump)
      | Undefined => Undefined
      | OutOfFuel => OutOfFuel
      end
    else Finished (0, report_args a ++ setup_spline a x y ++ setup_failed).
Proof.
  intros Hp Hins Hout Hsub. unfold main.
  rewrite Hp, Hins, Hout, Hsub. reflexivity.
Qed.

(** With fuel for the input, the data are read and subsampled. *)
Lemma main_prepares_data fuel (a : Args) (ins : instream) :
  (length ins < fuel)%nat ->
  exists x y,
    subsample fuel (step a)
      (rd_x (read_data ins 0 0%float [] [])) (rd_y (read_data ins 0 0%float [] []))
    = Finished (x, y) /\
    length x = length y /\ (length x < fuel)%nat.
Proof.
  intros Hfuel.
  destruct (read_data_length ins) as [Hsize Hle].
  destruct (subsample_total fuel (step a) _ _ Hsize ltac:(lia))
    as (x & y & Hsub & Hxy & Hx).
  exists x, y. split; [exact Hsub|]. split; [exact Hxy|]. lia.
Qed.

(** A spline that is not [ok] ends the run with the message. *)
Lemma main_failed_fit fuel ys env a ins x y :
  parseCommandLine' ys "" "" = Proceeds a ->
  (if nonempty (infile a) then open_ifstream env (infile a)
   else Some (stdin env)) = Some ins ->
  nonempty (outfile a) && negb (open_ofstream env (outfile a)) = false ->
  subsample fuel (step a)
    (rd_x (read_data ins 0 0%float [] [])) (rd_y (read_data ins 0 0%float [] []))
  = Finished (x, y) ->
  ok (construct x y (wavelength a) (bc a) (num_nodes a)) = false ->
  main' fuel ys env
  = Finished (0, report_args a ++ setup_spline a x y ++ setup_failed).
Proof.
  intros Hp Hins Hout Hsub Hok.
  rewrite (main_after_parse _ _ _ _ _ _ _ Hp Hins Hout Hsub). cbv zeta.
  rewrite Hok. reflexivity.
Qed.

(** The trace of a failed fit has one constructor call and nothing of
    the table. *)
Lemma failed_fit_trace a x y :
  let tr := report_args a ++ setup_spline a x y ++ setup_failed in
  List.filter is_construct tr
  = [CallConstruct x y (wavelength a) (bc a) (num_nodes a)] /\
  List.filter is_evaluation tr = [] /\
  List.filter is_table_output tr = [].
Proof.
  cbv zeta. rewrite !List.filter_app.
  destruct (report_args_no_call a) as (-> & -> & ->).
  destruct (setup_spline_calls a x y) as (-> & -> & ->).
  repeat split.
Qed.

(** The constructor is called: once the parser has returned, the streams
    are open and the data are prepared, the run ends with status 0 and
    one constructor call in its trace, when the spline is not [ok] or the
    table has between 1 and 2^31 - 1 rows to write. *)
Lemma main_calls_constructor fuel ys env a ins x y :
  parseCommandLine' ys "" "" = Proceeds a ->
  (if nonempty (infile a) then open_ifstream env (infile a)
   else Some (stdin env)) = Some ins ->
  nonempty (outfile a) && negb (open_ofstream env (outfile a)) = false ->
  subsample fuel (step a)
    (rd_x (read_data ins 0 0%float [] [])) (rd_y (read_data ins 0 0%float [] []))
  = Finished (x, y) ->
  length x = length y ->
  (length x < fuel)%nat ->
  ok (construct x y (wavelength a) (bc a) (num_nodes a)) = false \/
  ((1 <= length x)%nat /\ Z.of_nat (length x) < 2 ^ 31) ->
  exists tr,
    main' fuel ys env = Finished (0, tr) /\
    List.filter is_construct tr
    = [CallConstruct x y (wavelength a) (bc a) (num_nodes a)].
Proof.
  intros Hp Hins Hout Hsub Hxy Hfuel Hcase.
  destruct (ok (construct x y (wavelength a) (bc a) (num_nodes a))) eqn:Hok.
  - destruct Hcase as [Hno|[H1 Hn]]; [discriminate|].
    rewrite (main_after_parse _ _ _ _ _ _ _ Hp Hins Hout Hsub). cbv zeta.
    rewrite Hok.
    pose proof (DumpSpline_table SplineT evaluate slope fuel x y
                  (construct x y (wavelength a) (bc a) (num_nodes a))
                  (if nonempty (outfile a) then OutFile (outfile a) else Cout)
                  (debug a) Hxy H1 Hn Hfuel) as Hd.
    rewrite Hd. eexists. split; [reflexivity|].
    rewrite !List.filter_app.
    rewrite (proj1 (report_args_no_call a)), (proj1 (setup_spline_calls a x y)).
    rewrite <- !List.filter_app.
    rewrite (DumpSpline_no_construct SplineT evaluate slope _ _ _ _ _ _ _ Hd).
    reflexivity.
  - rewrite (main_failed_fit _ _ _ _ _ _ _ Hp Hins Hout Hsub Hok).
    eexists. split; [reflexivity|]. apply failed_fit_trace.
Qed.

End MainCalls.

(** C3: [ok] holds exactly when the Basis Engine is valid and the solve
    succeeded; and once [parseCommandLine] has returned, the input and
    the output are open and there is fuel for the input, [main] reads and
    subsamples the data, and when the spline constructed from them is not
    [ok] it ends, with status 0, with the optional debug report, the
    constructor call and the message "Spline setup failed." on [cerr],
    without a call of [evaluate] or [slope] and without a cell of the
    table; and no run whose constructed spline is not [ok] ends in
    another way. *)
Theorem failed_fit_is_not_tabulated
    (atoi : string -> Z) (atof : string -> datum) (SplineT : Type)
    (Version : string)
    (construct : list datum -> list datum -> datum -> BoundaryCondition -> Z -> SplineT)
    (ok : SplineT -> bool) (evaluate slope : SplineT -> datum -> datum)
    (fuel : nat) (ys : list optyield) (env : Env) :
  (forall f : Core.CurveFit,
      Core.ok f = true <->
      Core.isValid (Core.engine f) = true /\
      Core.succeeded (Core.solve_status f) = true) /\
  (forall a ins,
      parseCommandLine atoi atof Version ys "" "" = Proceeds a ->
      (if nonempty (infile a) then open_ifstream env (infile a)
       else Some (stdin env)) = Some ins ->
      nonempty (outfile a) && negb (open_ofstream env (outfile a)) = false ->
      (length ins < fuel)%nat ->
      exists x y,
        subsample fuel (step a)
          (rd_x (read_data ins 0 0%float [] [])) (rd_y (read_data ins 0 0%float [] []))
        = Finished (x, y) /\
        (ok (construct x y (wavelength a) (bc a) (num_nodes a)) = false ->
         let tr := report_args a ++ setup_spline a x y ++
                   [Out Cerr 0 (Str "Spline setup failed."); Endl Cerr] in
         main atoi atof SplineT Version construct ok evaluate slope fuel ys env
         = Finished (0, tr) /\
         List.filter is_construct tr
         = [CallConstruct x y (wavelength a) (bc a) (num_nodes a)] /\
         List.filter is_evaluation tr = [] /\
         List.filter is_table_output tr = [])) /\
  (forall code tr x y wl b n,
      main atoi atof SplineT Version construct ok evaluate slope fuel ys env
      = Finished (code, tr) ->
      In (CallConstruct x y wl b n) tr ->
      ok (construct x y wl b n) = false ->
      code = 0 /\
      (exists a,
          parseCommandLine atoi atof Version ys "" "" = Proceeds a /\
          tr = report_args a ++ setup_spline a x y ++
               [Out Cerr 0 (Str "Spline setup failed."); Endl Cerr]) /\
      List.filter is_evaluation tr = [] /\
      List.filter is_table_output tr = []).
Proof.
  split; [exact ok_iff|]. split.
  - intros a ins Hp Hins Hout Hfuel.
    destruct (main_prepares_data fuel a ins Hfuel) as (x & y & Hsub & _ & _).
    exists x, y. split; [exact Hsub|].
    intros Hok. cbv zeta.
    split; [exact (main_failed_fit _ _ _ _ _ _ _ _ _ _ _ _ _ _ _
                     Hp Hins Hout Hsub Hok)|].
    apply (failed_fit_trace a x y).
  - intros code tr x y wl b n Hm Hin Hok.
    destruct (main_constructs _ _ _ _ _ _ _ _ _ _ _ _ _ _ _ _ _ _ Hm Hin)
      as (a & Hp & _ & _ & _ & Hfail).
    destruct (Hfail Hok) as [-> ->].
    split; [reflexivity|]. split; [exists a; split; [exact Hp|reflexivity]|].
    destruct (failed_fit_trace a x y) as (_ & He & Ht).
    split; [exact He|exact Ht].
Qed.

Lemma failed_fit_witness :
  let tr := [CallConstruct [0; 2; 4]%float [0; 2; 4]%float 5%float BC_ZERO_SECOND 0;
             Out Cerr 0 (Str "Spline setup failed."); Endl Cerr] in
  Example.run_main 11 [("w"%char, Some "5"%string); ("s"%char, Some "2"%string)]
    (Example.env (Example.line 5)) = Finished (0, tr) /\
  List.filter is_evaluation tr = [] /\
  List.filter is_table_output tr = [].
Proof.
  cbv zeta.
  destruct (failed_fit_is_not_tabulated
              Example.atoi Example.atof Core.CurveFit (BSPLINE_VERSION None)
              Example.construct Core.ok Example.evaluate Example.slope
              11 [("w"%char, Some "5"%string); ("s"%char, Some "2"%string)]
              (Example.env (Example.line 5)))
    as (_ & Hfailed & _).
  destruct (Hfailed
              {| infile := ""; outfile := ""; step := 2; wavelength := 5%float;
                 bc := BC_ZERO_SECOND; num_nodes := 0; debug := false |}
              (Example.line 5)
              ltac:(vm_compute; reflexivity) eq_refl eq_refl
              ltac:(vm_compute; lia))
    as (x & y & Hsub & Hfail).
  vm_compute in Hsub. inversion Hsub; subst x y.
  destruct (Hfail ltac:(vm_compute; reflexivity)) as (Hm & _ & He & Ht).
  split; [exact Hm|]. split; [exact He|exact Ht].
Defined.

(** C4: the knot selection of the Basis Engine is by wavelength or by
    node count, never both.  The harness for its part never returns from
    [parseCommandLine] without a [-w] argument: on a command line of
    fewer than 2^32 - 1 options, where the [unsigned int] error count is
    exact, it leaves through [exit(1)] after the usage message when no
    [-h] or [-v] comes first.  Once [parseCommandLine] has returned, the
    input and the output are open and there is fuel for the input, [main]
    reads and subsamples the data and calls the constructor once, with
    the parsed wavelength and the parsed node count together: the run
    ends with status 0 and that call in its trace when the spline is not
    [ok] or the table has between 1 and 2^31 - 1 rows.  No constructor
    call of a run that ends has other values, and the node count is 0
    when no [-n] argument is given. *)
Theorem harness_requires_wavelength_and_passes_both
    (atoi : string -> Z) (atof : string -> datum) (SplineT : Type)
    (Version : string)
    (construct : list datum -> list datum -> datum -> BoundaryCondition -> Z -> SplineT)
    (ok : SplineT -> bool) (evaluate slope : SplineT -> datum -> datum)
    (fuel : nat) (ys : list optyield) (env : Env) :
  (forall k : Core.KnotSelection,
      xorb (Core.by_wavelength k) (Core.by_node_count k) = true) /\
  (Z.of_nat (length ys) < 2 ^ 32 - 1 ->
   given "w" ys = false ->
   (forall a, parseCommandLine atoi atof Version ys "" "" <> Proceeds a) /\
   (runs_through ys = true ->
    parseCommandLine atoi atof Version ys "" "" = Exits 1 [Usage Cerr] /\
    main atoi atof SplineT Version construct ok evaluate slope fuel ys env
    = Finished (1, [Usage Cerr]))) /\
  (forall a ins,
      parseCommandLine atoi atof Version ys "" "" = Proceeds a ->
      (if nonempty (infile a) then open_ifstream env (infile a)
       else Some (stdin env)) = Some ins ->
      nonempty (outfile a) && negb (open_ofstream env (outfile a)) = false ->
      (length ins < fuel)%nat ->
      exists x y,
        subsample fuel (step a)
          (rd_x (read_data ins 0 0%float [] [])) (rd_y (read_data ins 0 0%float [] []))
        = Finished (x, y) /\
        (ok (construct x y (wavelength a) (bc a) (num_nodes a)) = false \/
         ((1 <= length x)%nat /\ Z.of_nat (length x) < 2 ^ 31) ->
         exists tr,
           main atoi atof SplineT Version construct ok evaluate slope fuel ys env
           = Finished (0, tr) /\
           In (CallConstruct x y (wavelength a) (bc a) (num_nodes a)) tr /\
           List.filter is_construct tr
           = [CallConstruct x y (wavelength a) (bc a) (num_nodes a)])) /\
  (forall code tr x y wl b n,
      main atoi atof SplineT Version construct ok evaluate slope fuel ys env
      = Finished (code, tr) ->
      In (CallConstruct x y wl b n) tr ->
      exists a,
        parseCommandLine atoi atof Version ys "" "" = Proceeds a /\
        wl = wavelength a /\ n = num_nodes a) /\
  (forall a,
      parseCommandLine atoi atof Version ys "" "" = Proceeds a ->
      given "n" ys = false ->
      num_nodes a = 0).
Proof.
  split; [|split; [|split; [|split]]].
  - intros [w|n]; reflexivity.
  - intros Hlen Hw.
    destruct (unset_wavelength_exits atoi atof Version ys "" "" Hlen Hw) as [Hno Hexit].
    split; [exact Hno|].
    intros Hys. split; [auto|]. apply main_exits; auto.
  - intros a ins Hp Hins Hout Hfuel.
    destruct (main_prepares_data fuel a ins Hfuel) as (x & y & Hsub & Hxy & Hx).
    exists x, y. split; [exact Hsub|].
    intros Hcase.
    destruct (main_calls_constructor atoi atof SplineT Version construct ok
                evaluate slope fuel ys env a ins x y Hp Hins Hout Hsub Hxy Hx Hcase)
      as (tr & Hm & Hc).
    exists tr. split; [exact Hm|]. split; [|exact Hc].
    assert (In (CallConstruct x y (wavelength a) (bc a) (num_nodes a))
               (List.filter is_construct tr)) as Hin
      by (rewrite Hc; left; reflexivity).
    apply List.filter_In in Hin. tauto.
  - intros code tr x y wl b n Hm Hin.
    destruct (main_constructs _ _ _ _ _ _ _ _ _ _ _ _ _ _ _ _ _ _ Hm Hin)
      as (a & Hp & Hwl & _ & Hn & _).
    eauto.
  - intros a Hp Hn.
    apply parse_proceeds in Hp as [err Hloop].
    apply option_loop_keeps in Hloop as (_ & _ & Hkeep).
    rewrite (Hkeep Hn). reflexivity.
Qed.

Lemma harness_requires_wavelength_witness :
  Example.run_main 11 [("n"%char, Some "12"%string); ("d"%char, None)]
    (Example.env (Example.line 5)) = Finished (1, [Usage Cerr]) /\
  (exists tr,
      Example.run_main 11 [("w"%char, Some "5"%string); ("n"%char, Some "12"%string)]
        (Example.env (Example.line 5)) = Finished (0, tr) /\
      In (CallConstruct [0; 1; 2; 3; 4]%float [0; 1; 2; 3; 4]%float 5%float
            BC_ZERO_SECOND 12) tr).
Proof.
  split.
  - destruct (harness_requires_wavelength_and_passes_both
        Example.atoi Example.atof Core.CurveFit (BSPLINE_VERSION None)
        Example.construct Core.ok Example.evaluate Example.slope 11%nat
        [("n"%char, Some "12"%string); ("d"%char, None)]
        (Example.env (Example.line 5))) as (_ & Hw & _).
    destruct (Hw ltac:(vm_compute; reflexivity) eq_refl) as (_ & Hexit).
    exact (proj2 (Hexit eq_refl)).
  - destruct (harness_requires_wavelength_and_passes_both
        Example.atoi Example.atof Core.CurveFit (BSPLINE_VERSION None)
        Example.construct Core.ok Example.evaluate Example.slope 11%nat
        [("w"%char, Some "5"%string); ("n"%char, Some "12"%string)]
        (Example.env (Example.line 5))) as (_ & _ & Hcalls & _).
    destruct (Hcalls
        {| infile := ""; outfile := ""; step := 0; wavelength := 5%float;
           bc := BC_ZERO_SECOND; num_nodes := 12; debug := false |}
        (Example.line 5)
        ltac:(vm_compute; reflexivity) eq_refl eq_refl ltac:(vm_compute; lia))
      as (x & y & Hsub & Hcall).
    vm_compute in Hsub. inversion Hsub; subst x y.
    assert ((1 <= length [0; 1; 2; 3; 4]%float)%nat /\
            Z.of_nat (length [0; 1; 2; 3; 4]%float) < 2 ^ 31) as Hrows
      by (split; simpl; lia).
    destruct (Hcall (or_intror Hrows)) as (tr & Hm & Hin & _).
    exists tr. split; [exact Hm|exact Hin].
Defined.
